(** * Waste-management TUI: the list/form state machine

    A shallow embedding of [wmtui.go].  The file holds two variants of the
    program, each a Bubble Tea model with an [Update] function:

    - [Textinput]: the variant built on five [textinput] fields and a
      [focusIndex] (the first program of the file);
    - [Linebuf]: the variant with one text buffer [input] and one
      [inputmode] per field (the second program of the file).

    Both share [wasteItem], the SQL statements and the [inputmode]
    enumeration.  The record store behind [*sql.DB] and [strconv.ParseFloat]
    belong to the host, and are taken as an interface ([Host]); slices are
    lists, [int] is [Z], [float64] is the kernel's binary64 [float], a
    run-time panic (index out of range) is the outcome [Panic]. *)

From Stdlib Require Import Floats.
From stdpp Require Import base numbers list strings.

#[local] Open Scope Z_scope.
#[local] Set Warnings "-inexact-float".

(** ** Go values *)

(** A Go result pair [(v, err)]: [Ok v] when [err == nil], [Err msg] otherwise
    ([msg] is [err.Error()]). *)
Inductive result (A : Type) : Type :=
| Ok (a : A)
| Err (e : string).
Arguments Ok {A} a.
Arguments Err {A} e.

(** What a call comes to: a value, or a run-time panic. *)
Inductive outcome (A : Type) : Type :=
| Done (a : A)
| Panic.
Arguments Done {A} a.
Arguments Panic {A}.

#[global] Instance outcome_ret : MRet outcome := @Done.
#[global] Instance outcome_bind : MBind outcome := λ A B f o,
  match o with Done a => f a | Panic => Panic end.

(** [len(s)] as an [int]. *)
Definition len {A : Type} (l : list A) : Z := Z.of_nat (length l).

(** [s[i]] read: [None] is the index-out-of-range panic. *)
Definition at_index {A : Type} (l : list A) (i : Z) : option A :=
  if bool_decide (0 ≤ i) then l !! Z.to_nat i else None.

(** [s[i]] read as a value. *)
Definition get_at {A : Type} (l : list A) (i : Z) : outcome A :=
  match at_index l i with
  | Some x => Done x
  | None => Panic
  end.

(** [s[i] = x]. *)
Definition store_at {A : Type} (l : list A) (i : Z) (x : A) : outcome (list A) :=
  match at_index l i with
  | Some _ => Done (<[Z.to_nat i := x]> l)
  | None => Panic
  end.

(** [s[i].f = v], as a read, a field update and a write back. *)
Definition modify_at {A : Type} (l : list A) (i : Z) (f : A → A) : outcome (list A) :=
  match at_index l i with
  | Some x => Done (<[Z.to_nat i := f x]> l)
  | None => Panic
  end.

(** [append(s[:i], s[i+1:]...)] for an index [i] already read. *)
Definition remove_at {A : Type} (l : list A) (i : Z) : list A :=
  take (Z.to_nat i) l ++ drop (Z.to_nat (i + 1)) l.

(** [fmt.Errorf(prefix + ": %v", err)]. *)
Definition Errorf (prefix e : string) : string := prefix +:+ ": " +:+ e.

(** [msg.String() == s], one label of a [switch]. *)
Definition key_is (key s : string) : bool := String.eqb key s.

(** The keys by what the programs bind them to: the list keys of the
    single-buffer program, the focus keys of the textinput program, and in a
    form every key that is neither confirm nor cancel. *)
Definition up_key (key : string) : Prop := key = "up" ∨ key = "k".
Definition down_key (key : string) : Prop := key = "down" ∨ key = "j".
Definition move_key (key : string) : Prop := up_key key ∨ down_key key.
Definition focus_key (key : string) : Prop :=
  key = "tab" ∨ key = "shift+tab" ∨ key = "up" ∨ key = "down".
Definition text_key (key : string) : Prop := key ≠ "enter" ∧ key ≠ "esc".

(** ** Shared declarations *)

Record wasteItem : Type := {
  id : Z;
  name : string;
  quantity : float;
  wasteType : string;
  location : string;
  method : string
}.

Inductive inputmodeT : Type :=
| normal
| addingName
| addingQuantity
| addingWasteType
| addingLocation
| addingMethod.

#[global] Instance inputmodeT_eq_dec : EqDecision inputmodeT.
Proof. solve_decision. Defined.

(** A message of the Bubble Tea loop: a key, by its [String()], or any other
    message. *)
Inductive Msg : Type :=
| KeyMsg (s : string)
| OtherMsg.

(** The commands [Update] returns. *)
#[warnings="-register-all"]
Inductive Cmd : Type :=
| CmdNil
| CmdQuit
| CmdBlink
| CmdBatch (cs : list Cmd).

(** The host: [strconv.ParseFloat(s, 64)] and the record store reached
    through [database/sql].  [DB] is the state of the store; each statement
    returns the store after it.
    - [Query]: [SELECT id, name, quantity, wasteType, location, method FROM waste_items],
      scanned row by row;
    - [ExecInsert]: [INSERT INTO waste_items (name, quantity, wasteType, location, method) VALUES (?, ?, ?, ?, ?)];
    - [ExecDelete]: [DELETE FROM waste_items WHERE id = ?]. *)
Class Host : Type := {
  ParseFloat : string → result float;
  DB : Type;
  sqlResult : Type;
  Query : DB → result (list wasteItem);
  ExecInsert : DB → string → float → string → string → string → DB * result sqlResult;
  LastInsertId : sqlResult → result Z;
  ExecDelete : DB → Z → DB * result unit
}.

(** ** The single-buffer variant *)

Module Linebuf.
Section Program.
Context {host : Host}.

Record model : Type := {
  db : DB;
  waste : list wasteItem;
  cursor : Z;
  input : string;
  inputmode : inputmodeT;
  err : option string
}.

Definition set_db (v : DB) (m : model) : model :=
  {| db := v; waste := waste m; cursor := cursor m; input := input m;
     inputmode := inputmode m; err := err m |}.
Definition set_waste (v : list wasteItem) (m : model) : model :=
  {| db := db m; waste := v; cursor := cursor m; input := input m;
     inputmode := inputmode m; err := err m |}.
Definition set_cursor (v : Z) (m : model) : model :=
  {| db := db m; waste := waste m; cursor := v; input := input m;
     inputmode := inputmode m; err := err m |}.
Definition set_input (v : string) (m : model) : model :=
  {| db := db m; waste := waste m; cursor := cursor m; input := v;
     inputmode := inputmode m; err := err m |}.
Definition set_inputmode (v : inputmodeT) (m : model) : model :=
  {| db := db m; waste := waste m; cursor := cursor m; input := input m;
     inputmode := v; err := err m |}.
Definition set_err (v : option string) (m : model) : model :=
  {| db := db m; waste := waste m; cursor := cursor m; input := input m;
     inputmode := inputmode m; err := v |}.

(** [initialModel]: [Err] is the [log.Fatalf] exit. *)
Definition initialModel (d : DB) : result model :=
  match Query d with
  | Err e => Err (Errorf "Error loading waste items" e)
  | Ok items =>
      Ok {| db := d; waste := items; cursor := 0; input := "";
            inputmode := normal; err := None |}
  end.

(** [addWasteItem]: the receiver is a copy, its [waste] slice shares the
    caller's array, so the write at [len(m.waste)-1] is the caller's too.
    Returns the store, the slice contents and the error. *)
Definition addWasteItem (m : model) (item : wasteItem)
  : outcome (DB * list wasteItem * result unit) :=
  let '(d, r) := ExecInsert (db m) (name item) (quantity item) (wasteType item)
                            (location item) (method item) in
  match r with
  | Err e => Done (d, waste m, Err e)
  | Ok res =>
      match LastInsertId res with
      | Err e => Done (d, waste m, Err e)
      | Ok i =>
          let item := {| id := i; name := name item; quantity := quantity item;
                         wasteType := wasteType item; location := location item;
                         method := method item |} in
          w ← store_at (waste m) (len (waste m) - 1) item;
          Done (d, w, Ok tt)
      end
  end.

Definition deleteWasteItem (m : model) (i : Z) : DB * result unit :=
  ExecDelete (db m) i.

Definition updateNormal (m : model) (key : string) : outcome (model * Cmd) :=
  if key_is key "ctrl+c" || key_is key "q" then Done (m, CmdQuit)
  else if key_is key "up" || key_is key "k" then
    Done (if bool_decide (0 < cursor m) then set_cursor (cursor m - 1) m else m, CmdNil)
  else if key_is key "down" || key_is key "j" then
    Done (if bool_decide (cursor m < len (waste m) - 1)
          then set_cursor (cursor m + 1) m else m, CmdNil)
  else if key_is key "a" then
    Done (set_input "" (set_inputmode addingName m), CmdNil)
  else if key_is key "d" then
    if bool_decide (0 < len (waste m)) then
      match at_index (waste m) (cursor m) with
      | None => Panic
      | Some it =>
          let '(d, r) := deleteWasteItem m (id it) in
          let m := set_db d m in
          match r with
          | Err e => Done (set_err (Some (Errorf "failed to delete item" e)) m, CmdNil)
          | Ok _ =>
              let m := set_waste (remove_at (waste m) (cursor m)) m in
              Done (if bool_decide (len (waste m) ≤ cursor m)
                    then set_cursor (len (waste m) - 1) m else m, CmdNil)
          end
      end
    else Done (m, CmdNil)
  else Done (m, CmdNil).

(** The zero-valued item but for its name: [wasteItem{name: m.input}]. *)
Definition pending (n : string) : wasteItem :=
  {| id := 0; name := n; quantity := 0%float; wasteType := ""; location := "";
     method := "" |}.

Definition with_quantity (q : float) (it : wasteItem) : wasteItem :=
  {| id := id it; name := name it; quantity := q; wasteType := wasteType it;
     location := location it; method := method it |}.
Definition with_wasteType (s : string) (it : wasteItem) : wasteItem :=
  {| id := id it; name := name it; quantity := quantity it; wasteType := s;
     location := location it; method := method it |}.
Definition with_location (s : string) (it : wasteItem) : wasteItem :=
  {| id := id it; name := name it; quantity := quantity it;
     wasteType := wasteType it; location := s; method := method it |}.
Definition with_method (s : string) (it : wasteItem) : wasteItem :=
  {| id := id it; name := name it; quantity := quantity it;
     wasteType := wasteType it; location := location it; method := s |}.

Definition updateAddingText (m : model) (key : string) : outcome (model * Cmd) :=
  if key_is key "enter" then
    m ← match inputmode m with
        | addingName =>
            Done (set_inputmode addingQuantity
                    (set_waste (waste m ++ [pending (input m)]) m))
        | addingWasteType =>
            w ← modify_at (waste m) (len (waste m) - 1) (with_wasteType (input m));
            Done (set_inputmode addingLocation (set_waste w m))
        | addingLocation =>
            w ← modify_at (waste m) (len (waste m) - 1) (with_location (input m));
            Done (set_inputmode addingMethod (set_waste w m))
        | addingMethod =>
            w ← modify_at (waste m) (len (waste m) - 1) (with_method (input m));
            let m := set_waste w m in
            match at_index (waste m) (len (waste m) - 1) with
            | None => Panic
            | Some it =>
                '(d, w, r) ← addWasteItem m it;
                let m := set_waste w (set_db d m) in
                let m := match r with
                         | Err e => set_err (Some (Errorf "failed to add item" e)) m
                         | Ok _ => m
                         end in
                Done (set_inputmode normal m)
            end
        | _ => Done m
        end;
    Done (set_input "" m, CmdNil)
  else if key_is key "esc" then
    Done (set_input "" (set_inputmode normal m), CmdNil)
  else Done (set_input (input m +:+ key) m, CmdNil).

Definition updateAddingQuantity (m : model) (key : string) : outcome (model * Cmd) :=
  if key_is key "enter" then
    m ← match ParseFloat (input m) with
        | Err e => Done (set_err (Some (Errorf "invalid quantity entered" e)) m)
        | Ok q =>
            w ← modify_at (waste m) (len (waste m) - 1) (with_quantity q);
            Done (set_err None (set_inputmode addingWasteType (set_waste w m)))
        end;
    Done (set_input "" m, CmdNil)
  else if key_is key "esc" then
    Done (set_input "" (set_inputmode normal m), CmdNil)
  else Done (set_input (input m +:+ key) m, CmdNil).

Definition Update (m : model) (msg : Msg) : outcome (model * Cmd) :=
  match msg with
  | KeyMsg key =>
      match inputmode m with
      | normal => updateNormal m key
      | addingName | addingWasteType | addingLocation | addingMethod =>
          updateAddingText m key
      | addingQuantity => updateAddingQuantity m key
      end
  | OtherMsg => Done (m, CmdNil)
  end.

(** The event loop over a list of keys: it stops at a panic and at [tea.Quit]. *)
Fixpoint run (m : model) (keys : list string) : outcome model :=
  match keys with
  | [] => Done m
  | key :: keys =>
      match Update m (KeyMsg key) with
      | Panic => Panic
      | Done (m, CmdQuit) => Done m
      | Done (m, _) => run m keys
      end
  end.

(** The index of the item under construction, [len(m.waste)-1]. *)
Definition last_index (m : model) : nat := Z.to_nat (len (waste m) - 1).

End Program.
End Linebuf.

(** ** The textinput variant *)

Module Textinput.

(** What the program uses of a [textinput.Model]: its text and its focus
    flag (placeholder, styles and the blinking cursor are rendering). *)
Record textinput : Type := {
  Value : string;
  focus : bool
}.

Definition New : textinput := {| Value := ""; focus := false |}.
Definition Focus (t : textinput) : textinput := {| Value := Value t; focus := true |}.
Definition Blur (t : textinput) : textinput := {| Value := Value t; focus := false |}.
Definition SetValue (s : string) (t : textinput) : textinput :=
  {| Value := s; focus := focus t |}.

(** The item a form holds, under the identifier [i]. *)
Definition form_item (q : float) (t0 t2 t3 t4 : textinput) (i : Z) : wasteItem :=
  {| id := i; name := Value t0; quantity := q; wasteType := Value t2;
     location := Value t3; method := Value t4 |}.

(** [cursor.Mode]: [CursorBlink], [CursorStatic], [CursorHide]. *)
Definition CursorBlink : Z := 0.
Definition CursorHide : Z := 2.

Section Program.
Context {host : Host}.

Record model : Type := {
  db : DB;
  waste : list wasteItem;
  cursor : Z;
  inputs : list textinput;
  inputmode : inputmodeT;
  err : option string;
  cursorMode : Z;
  focusIndex : Z
}.

Definition set_db (v : DB) (m : model) : model :=
  {| db := v; waste := waste m; cursor := cursor m; inputs := inputs m;
     inputmode := inputmode m; err := err m; cursorMode := cursorMode m;
     focusIndex := focusIndex m |}.
Definition set_waste (v : list wasteItem) (m : model) : model :=
  {| db := db m; waste := v; cursor := cursor m; inputs := inputs m;
     inputmode := inputmode m; err := err m; cursorMode := cursorMode m;
     focusIndex := focusIndex m |}.
Definition set_cursor (v : Z) (m : model) : model :=
  {| db := db m; waste := waste m; cursor := v; inputs := inputs m;
     inputmode := inputmode m; err := err m; cursorMode := cursorMode m;
     focusIndex := focusIndex m |}.
Definition set_inputs (v : list textinput) (m : model) : model :=
  {| db := db m; waste := waste m; cursor := cursor m; inputs := v;
     inputmode := inputmode m; err := err m; cursorMode := cursorMode m;
     focusIndex := focusIndex m |}.
Definition set_inputmode (v : inputmodeT) (m : model) : model :=
  {| db := db m; waste := waste m; cursor := cursor m; inputs := inputs m;
     inputmode := v; err := err m; cursorMode := cursorMode m;
     focusIndex := focusIndex m |}.
Definition set_err (v : option string) (m : model) : model :=
  {| db := db m; waste := waste m; cursor := cursor m; inputs := inputs m;
     inputmode := inputmode m; err := v; cursorMode := cursorMode m;
     focusIndex := focusIndex m |}.
Definition set_cursorMode (v : Z) (m : model) : model :=
  {| db := db m; waste := waste m; cursor := cursor m; inputs := inputs m;
     inputmode := inputmode m; err := err m; cursorMode := v;
     focusIndex := focusIndex m |}.
Definition set_focusIndex (v : Z) (m : model) : model :=
  {| db := db m; waste := waste m; cursor := cursor m; inputs := inputs m;
     inputmode := inputmode m; err := err m; cursorMode := cursorMode m;
     focusIndex := v |}.

(** [initialModel]: five empty inputs, the first one focused; [Err] is the
    [log.Fatalf] exit. *)
Definition initialModel (d : DB) : result model :=
  match Query d with
  | Err e => Err (Errorf "Error loading waste items" e)
  | Ok items =>
      Ok {| db := d; waste := items; cursor := 0;
            inputs := [Focus New; New; New; New; New];
            inputmode := normal; err := None; cursorMode := CursorBlink;
            focusIndex := 0 |}
  end.

(** [updateInputs]: every input sees the message; a message that is no key
    leaves the texts as they are. *)
Definition updateInputs (m : model) : Cmd :=
  CmdBatch (map (λ _, CmdNil) (inputs m)).

(** [addWasteItem]: the receiver is a copy, its [waste] slice shares the
    caller's array, so the write at [len(m.waste)-1] is the caller's too.
    Returns the store, the slice contents and the error. *)
Definition addWasteItem (m : model) (item : wasteItem)
  : outcome (DB * list wasteItem * result unit) :=
  let '(d, r) := ExecInsert (db m) (name item) (quantity item) (wasteType item)
                            (location item) (method item) in
  match r with
  | Err e => Done (d, waste m, Err e)
  | Ok res =>
      match LastInsertId res with
      | Err e => Done (d, waste m, Err e)
      | Ok i =>
          let item := {| id := i; name := name item; quantity := quantity item;
                         wasteType := wasteType item; location := location item;
                         method := method item |} in
          w ← store_at (waste m) (len (waste m) - 1) item;
          Done (d, w, Ok tt)
      end
  end.

Definition deleteWasteItem (m : model) (i : Z) : DB * result unit :=
  ExecDelete (db m) i.

Definition updateNormal (m : model) (key : string) : outcome (model * Cmd) :=
  if key_is key "ctrl+c" || key_is key "q" then Done (m, CmdQuit)
  else if key_is key "ctrl+r" then
    let m := set_cursorMode (cursorMode m + 1) m in
    let m := if bool_decide (CursorHide < cursorMode m)
             then set_cursorMode CursorBlink m else m in
    Done (m, CmdBatch (map (λ _, if bool_decide (cursorMode m = CursorBlink)
                                 then CmdBlink else CmdNil) (inputs m)))
  else if key_is key "tab" || key_is key "shift+tab" || key_is key "up"
          || key_is key "down" then
    if key_is key "enter" && bool_decide (focusIndex m = len (inputs m))
    then Done (m, CmdQuit)
    else
      let m := if key_is key "up" || key_is key "shift+tab"
               then set_focusIndex (focusIndex m - 1) m
               else set_focusIndex (focusIndex m + 1) m in
      let m := if bool_decide (len (inputs m) < focusIndex m)
               then set_focusIndex 0 m
               else if bool_decide (focusIndex m < 0)
                    then set_focusIndex (len (inputs m)) m else m in
      let hit (i : nat) := bool_decide (Z.of_nat i = focusIndex m) in
      Done (set_inputs (imap (λ i t, if hit i then Focus t else Blur t) (inputs m)) m,
            CmdBatch (imap (λ i _, if hit i then CmdBlink else CmdNil) (inputs m)))
  else if key_is key "a" then
    let m := set_focusIndex 0 (set_inputmode addingName m) in
    ins ← modify_at (inputs m) 0 Focus;
    Done (set_inputs ins m, CmdBlink)
  else if key_is key "d" then
    if bool_decide (0 < len (waste m)) then
      match at_index (waste m) (cursor m) with
      | None => Panic
      | Some it =>
          let '(d, r) := deleteWasteItem m (id it) in
          let m := set_db d m in
          match r with
          | Err e => Done (set_err (Some (Errorf "failed to delete item" e)) m, CmdNil)
          | Ok _ =>
              let m := set_waste (remove_at (waste m) (cursor m)) m in
              Done (if bool_decide (len (waste m) ≤ cursor m)
                    then set_cursor (len (waste m) - 1) m else m, CmdNil)
          end
      end
    else Done (m, CmdNil)
  else Done (m, CmdNil).

Definition submitWasteItem (m : model) : outcome (model * Cmd) :=
  t1 ← get_at (inputs m) 1;
  match ParseFloat (Value t1) with
  | Err e => Done (set_err (Some (Errorf "invalid quantity" e)) m, CmdNil)
  | Ok q =>
      t0 ← get_at (inputs m) 0;
      t2 ← get_at (inputs m) 2;
      t3 ← get_at (inputs m) 3;
      t4 ← get_at (inputs m) 4;
      let newItem := {| id := 0; name := Value t0; quantity := q;
                        wasteType := Value t2; location := Value t3;
                        method := Value t4 |} in
      '(d, w, r) ← addWasteItem m newItem;
      let m := set_waste w (set_db d m) in
      match r with
      | Err e => Done (set_err (Some (Errorf "failed to add item" e)) m, CmdNil)
      | Ok _ =>
          let m := set_inputmode normal m in
          let m := set_inputs (map (SetValue "") (inputs m)) m in
          Done (set_focusIndex 0 m, CmdNil)
      end
  end.

Definition updateAdding (m : model) (key : string) : outcome (model * Cmd) :=
  if key_is key "enter" then
    if bool_decide (focusIndex m < len (inputs m) - 1) then
      let m := set_focusIndex (focusIndex m + 1) m in
      ins ← modify_at (inputs m) (focusIndex m) Focus;
      Done (set_inputs ins m, CmdBlink)
    else submitWasteItem m
  else if key_is key "esc" then
    Done (set_focusIndex 0 (set_inputmode normal m), CmdNil)
  else Done (m, CmdNil).

Definition Update (m : model) (msg : Msg) : outcome (model * Cmd) :=
  match msg with
  | KeyMsg key =>
      match inputmode m with
      | normal => updateNormal m key
      | addingName | addingWasteType | addingLocation | addingMethod
      | addingQuantity => updateAdding m key
      end
  | OtherMsg => Done (m, updateInputs m)
  end.

(** The event loop over a list of keys: it stops at a panic and at [tea.Quit]. *)
Fixpoint run (m : model) (keys : list string) : outcome model :=
  match keys with
  | [] => Done m
  | key :: keys =>
      match Update m (KeyMsg key) with
      | Panic => Panic
      | Done (m, CmdQuit) => Done m
      | Done (m, _) => run m keys
      end
  end.

(** Every field of the form is empty. *)
Definition blank (m : model) : Prop := Forall (λ t, Value t = "") (inputs m).

End Program.
End Textinput.

(** ** The screen of the single-buffer program *)

Module LinebufView.

(** The two [lipgloss] styles [View] builds. *)
Inductive Style : Type :=
| titleStyle
| selectedStyle.

(** The terminal side of [View]: [Style.Render] of [lipgloss], and
    [fmt.Sprintf("%-10s | %-10s | %-8.2f | %-10s | %-15s", ...)] on name,
    type, quantity, location and method. *)
Class Terminal : Type := {
  Render : Style → string → string;
  Sprintf_row : string → string → float → string → string → string
}.

(** The line feed. *)
Definition nl : string :=
  String (Ascii.Ascii false true false true false false false false) EmptyString.

Definition getInputModeName (mode : inputmodeT) : string :=
  match mode with
  | addingName => "waste name"
  | addingQuantity => "quantity"
  | addingWasteType => "waste type"
  | addingLocation => "location"
  | addingMethod => "disposal method"
  | normal => ""
  end.

Section Program.
Context {host : Host} {terminal : Terminal}.

(** The loop [for i, item := range m.waste] on the text [s] built so far. *)
Fixpoint rows (cursor i : Z) (items : list wasteItem) (s : string) : string :=
  match items with
  | [] => s
  | item :: items =>
      let line := Sprintf_row (name item) (wasteType item) (quantity item)
                              (location item) (method item) in
      let s := s +:+ (if bool_decide (cursor = i) then Render selectedStyle line
                      else line) in
      rows cursor (i + 1) items (s +:+ nl)
  end.

(** [View] down to the blank line under the rows. *)
Definition table (m : Linebuf.model) : string :=
  let s := "Waste Management System" +:+ nl +:+ nl in
  let s := s +:+ (Render titleStyle "Name | Type | Quantity | Location | Disposal Method"
                  +:+ nl) in
  let s := rows (Linebuf.cursor m) 0 (Linebuf.waste m) s in
  s +:+ nl.

Definition View (m : Linebuf.model) : string :=
  let s := table m in
  if bool_decide (Linebuf.inputmode m = normal) then
    s +:+ ("Press (a) to add, (d) to delete, up/down to move, (q) to quit" +:+ nl)
  else
    let s := s +:+ ("Enter " +:+ getInputModeName (Linebuf.inputmode m) +:+ ": "
                    +:+ Linebuf.input m) in
    match Linebuf.err m with
    | Some e => s +:+ (nl +:+ "Error: " +:+ e)
    | None => s
    end.

End Program.
End LinebufView.

(** ** A host to run the programs on

    An in-memory record store with a fault script and a journal, and a
    decimal reader standing for [strconv.ParseFloat] on short plain
    decimals. *)

Module Mem.

Inductive stmt : Type :=
| Insert (n : string) (q : float) (wt loc me : string)
| Delete (i : Z).

(** [faults]: one flag per coming statement, [true] makes it fail;
    [journal]: the statements executed so far, oldest first. *)
Record store : Type := {
  rows : list wasteItem;
  next_id : Z;
  faults : list bool;
  journal : list stmt
}.

Definition fails (s : store) : bool :=
  match faults s with
  | b :: _ => b
  | [] => false
  end.

Definition insert (s : store) (n : string) (q : float) (wt loc me : string)
  : store * result Z :=
  let j := journal s ++ [Insert n q wt loc me] in
  if fails s then
    ({| rows := rows s; next_id := next_id s; faults := tail (faults s);
        journal := j |}, Err "disk I/O error")
  else
    ({| rows := rows s ++ [{| id := next_id s; name := n; quantity := q;
                              wasteType := wt; location := loc; method := me |}];
        next_id := next_id s + 1; faults := tail (faults s); journal := j |},
     Ok (next_id s)).

Definition delete (s : store) (i : Z) : store * result unit :=
  let j := journal s ++ [Delete i] in
  if fails s then
    ({| rows := rows s; next_id := next_id s; faults := tail (faults s);
        journal := j |}, Err "database is locked")
  else
    ({| rows := filter (λ it, id it ≠ i) (rows s); next_id := next_id s;
        faults := tail (faults s); journal := j |}, Ok tt).

(** Decimal digits, most significant first, as a number. *)
Definition digit (a : Ascii.ascii) : option Z :=
  let n := Z.of_N (Ascii.N_of_ascii a) in
  if bool_decide (48 ≤ n ≤ 57) then Some (n - 48) else None.

Fixpoint digits (s : string) (acc : Z) : option Z :=
  match s with
  | EmptyString => Some acc
  | String a s => d ← digit a; digits s (10 * acc + d)
  end.

(** The text before the first ['.'] and the text after it. *)
Fixpoint split_dot (s : string) : string * option string :=
  match s with
  | EmptyString => (EmptyString, None)
  | String a s =>
      if bool_decide (Ascii.N_of_ascii a = 46%N) then (EmptyString, Some s)
      else let '(i, f) := split_dot s in (String a i, f)
  end.

Definition to_float (z : Z) : float := PrimFloat.of_uint63 (Uint63.of_Z z).

Definition quote : string :=
  String (Ascii.Ascii false true false false false true false false) EmptyString.

Definition syntax_error (s : string) : string :=
  "strconv.ParseFloat: parsing " +:+ quote +:+ s +:+ quote +:+ ": invalid syntax".

(** [int.frac] with at most fifteen digits in all: numerator and power of
    ten are exact binary64 values, and their quotient is the nearest
    binary64 value to the decimal. *)
Definition parse_decimal (s : string) : result float :=
  let '(i, f) := split_dot s in
  let f := default EmptyString f in
  let all := i +:+ f in
  if bool_decide (String.length all = 0%nat) || bool_decide (15 < String.length all)%nat
  then Err (syntax_error s)
  else match digits all 0 with
       | None => Err (syntax_error s)
       | Some n => Ok (to_float n / to_float (10 ^ Z.of_nat (String.length f)))%float
       end.

#[export] Instance host : Host := {|
  ParseFloat := parse_decimal;
  DB := store;
  sqlResult := Z;
  Query := λ s, Ok (rows s);
  ExecInsert := insert;
  LastInsertId := Ok;
  ExecDelete := delete
|}.

(** A store holding [items], the coming statements failing as [fs] says. *)
Definition holding (items : list wasteItem) (fs : list bool) : store :=
  {| rows := items; next_id := 1 + foldr Z.max 0 (map id items); faults := fs;
     journal := [] |}.

End Mem.

(** ** Sample data *)

Module Sample.

Definition oil : wasteItem :=
  {| id := 1; name := "Oil"; quantity := 3.2%float; wasteType := "Liquid";
     location := "Bay1"; method := "Incinerate" |}.

Definition rags : wasteItem :=
  {| id := 2; name := "Rags"; quantity := 12.5%float; wasteType := "Solid";
     location := "Bay2"; method := "Landfill" |}.

(** The keys that type [s], one per character. *)
Fixpoint typed (s : string) : list string :=
  match s with
  | EmptyString => []
  | String a s => String a EmptyString :: typed s
  end.

(** The single-buffer program started on a store that holds [items]. *)
Definition lb_boot (items : list wasteItem) (fs : list bool)
  : Linebuf.model (host := Mem.host) :=
  @Linebuf.Build_model Mem.host (Mem.holding items fs) items 0 "" normal None.

(** The textinput program started on a store that holds [items]. *)
Definition ti_boot (items : list wasteItem) (fs : list bool)
  : Textinput.model (host := Mem.host) :=
  @Textinput.Build_model Mem.host (Mem.holding items fs) items 0
    [Textinput.Focus Textinput.New; Textinput.New; Textinput.New; Textinput.New;
     Textinput.New]
    normal None Textinput.CursorBlink 0.

(** A focused input that holds [s]. *)
Definition field (s : string) : Textinput.textinput :=
  {| Textinput.Value := s; Textinput.focus := true |}.

(** The textinput form on its field [focus], its inputs holding [texts]. *)
Definition ti_form (items : list wasteItem) (fs : list bool) (texts : list string)
    (focus : Z) : Textinput.model (host := Mem.host) :=
  @Textinput.Build_model Mem.host (Mem.holding items fs) items 0
    (field <$> texts)
    addingName None Textinput.CursorBlink focus.

(** A terminal without colours: a selected row is marked, and a row shows
    its texts (the quantity is left to the real formatter). *)
Definition plain : LinebufView.Terminal :=
  {| LinebufView.Render := λ st s,
       match st with
       | LinebufView.titleStyle => s
       | LinebufView.selectedStyle => "> " +:+ s
       end;
     LinebufView.Sprintf_row := λ n t _ l me,
       n +:+ " | " +:+ t +:+ " | " +:+ l +:+ " | " +:+ me |}.

End Sample.

(** ** States the programs keep to *)

(** The text a run of text keys leaves in a buffer that was empty. *)
Definition joined (keys : list string) : string := foldl String.append "" keys.

Module Shape.
Section Shape.
Context {host : Host}.

(** Single-buffer program: the cursor is -1 or an index not past the last
    one (0 on the empty list), and past the name field the list holds the
    item under construction. *)
Definition lb_wf (m : Linebuf.model) : Prop :=
  -1 ≤ Linebuf.cursor m ≤ Z.max 0 (len (Linebuf.waste m) - 1) ∧
  (Linebuf.inputmode m ≠ normal → Linebuf.inputmode m ≠ addingName →
   Linebuf.waste m ≠ []).

(** Textinput program: five blank inputs, the focus index on a field or on
    the submit position (on a field in the form), a cursor mode of the three,
    and a cursor that selects an item whenever the list has one. *)
Definition ti_wf (m : Textinput.model) : Prop :=
  length (Textinput.inputs m) = 5%nat ∧ Textinput.blank m ∧
  0 ≤ Textinput.focusIndex m ≤ 5 ∧
  (Textinput.inputmode m ≠ normal → Textinput.focusIndex m ≤ 4) ∧
  Textinput.CursorBlink ≤ Textinput.cursorMode m ≤ Textinput.CursorHide ∧
  (Textinput.waste m = [] → -1 ≤ Textinput.cursor m ≤ 0) ∧
  (Textinput.waste m ≠ [] → 0 ≤ Textinput.cursor m < len (Textinput.waste m)).

(** Textinput program: the form is only ever on its name mode, and the
    cursor is on the head of the list (0, or -1 once a delete has emptied
    the list). *)
Definition ti_head (m : Textinput.model) : Prop :=
  (Textinput.inputmode m = normal ∨ Textinput.inputmode m = addingName) ∧
  (Textinput.waste m ≠ [] → Textinput.cursor m = 0) ∧
  (Textinput.waste m = [] → Textinput.cursor m = 0 ∨ Textinput.cursor m = -1).

End Shape.
End Shape.

(** * Properties *)

(** ** Slices and keys *)

Lemma key_is_eq (key s : string) : key_is key s = true ↔ key = s.
Proof. unfold key_is. apply String.eqb_eq. Qed.

Lemma key_is_neq (key s : string) : key_is key s = false ↔ key ≠ s.
Proof. unfold key_is. apply String.eqb_neq. Qed.

Lemma at_index_Some {A : Type} (l : list A) (i : Z) (x : A) :
  at_index l i = Some x ↔ 0 ≤ i ∧ l !! Z.to_nat i = Some x.
Proof. unfold at_index. case_bool_decide; intuition congruence. Qed.

Lemma at_index_range {A : Type} (l : list A) (i : Z) (x : A) :
  at_index l i = Some x → 0 ≤ i < len l.
Proof.
  rewrite at_index_Some. intros [Hi Hl]. apply lookup_lt_Some in Hl.
  unfold len. lia.
Qed.

Lemma at_index_None {A : Type} (l : list A) (i : Z) :
  at_index l i = None ↔ i < 0 ∨ len l ≤ i.
Proof.
  unfold at_index, len. case_bool_decide.
  - rewrite lookup_ge_None. lia.
  - intuition lia.
Qed.

Lemma at_index_last {A : Type} (l : list A) (x : A) :
  at_index (l ++ [x]) (len (l ++ [x]) - 1) = Some x.
Proof.
  apply at_index_Some. unfold len. rewrite length_app. simpl. split; [lia|].
  replace (Z.to_nat _) with (length l + 0)%nat by lia.
  by rewrite lookup_app_r, Nat.add_comm, Nat.add_sub by lia.
Qed.

Lemma remove_at_delete {A : Type} (l : list A) (i : Z) :
  0 ≤ i → remove_at l i = delete (Z.to_nat i) l.
Proof.
  intros Hi. unfold remove_at. rewrite delete_take_drop.
  by replace (Z.to_nat (i + 1)) with (S (Z.to_nat i)) by lia.
Qed.

Lemma len_delete {A : Type} (l : list A) (i : Z) :
  0 ≤ i < len l → len (delete (Z.to_nat i) l) = len l - 1.
Proof.
  unfold len. intros Hi.
  destruct (lookup_lt_is_Some_2 l (Z.to_nat i)) as [x Hx]; [lia|].
  pose proof (length_delete l (Z.to_nat i) (ex_intro _ x Hx)) as Hd.
  assert (0 < length l)%nat by (apply lookup_lt_Some in Hx; lia). lia.
Qed.

Lemma len_nil_iff {A : Type} (l : list A) : len l = 0 ↔ l = [].
Proof. unfold len. destruct l; simpl; [done|]. split; [lia|done]. Qed.

Lemma len_insert {A : Type} (l : list A) (i : nat) (x : A) :
  len (<[i := x]> l) = len l.
Proof. unfold len. by rewrite length_insert. Qed.

Lemma len_nonneg {A : Type} (l : list A) : 0 ≤ len l.
Proof. unfold len. lia. Qed.

(** Labels of a [switch] on a literal key are decided by evaluation; on a
    key that is a variable every label is a case. *)
Ltac literal_keys :=
  repeat match goal with
         | |- context [key_is (String ?a ?k) ?s] =>
             let b := eval vm_compute in (key_is (String a k) s) in
             change (key_is (String a k) s) with b
         end;
  cbn [orb andb].

Ltac key_cases_goal key :=
  repeat match goal with
         | |- context [key_is key ?s] =>
             let E := fresh "Ekey" in
             destruct (key_is key s) eqn:E;
             [apply key_is_eq in E | apply key_is_neq in E]; cbn [orb andb]
         end.

(** A closed equation is decided by evaluating its left side; the state a
    closed run ends in is found the same way. *)
Ltac evaluated :=
  lazymatch goal with
  | |- _ = ?r => vm_cast_no_check (@eq_refl _ r)
  end.

Ltac run_result :=
  lazymatch goal with
  | |- ∃ m, ?run = Done (m, _) ∧ _ =>
      let v := eval vm_compute in run in
      lazymatch v with Done (?m, _) => exists m end
  | |- ∃ m, ?run = Done m ∧ _ =>
      let v := eval vm_compute in run in
      lazymatch v with Done ?m => exists m end
  end.

Tactic Notation "key_cases" constr(key) :=
  key_cases_goal key.
Tactic Notation "key_cases" constr(key) "in" hyp(H) :=
  revert H; key_cases_goal key; intros H.

(** ** The single-buffer variant *)

Module LinebufFacts.
Import Linebuf.
Section Facts.
Context {host : Host}.

Lemma lb_set_cursor_same (m : model) : set_cursor (cursor m) m = m.
Proof. by destruct m. Qed.

(** The [delete] key on a selected item: the statement runs on its
    identifier; on success the item leaves the list and the cursor is clamped,
    on failure only the store and the error change. *)
Lemma lb_delete_selected (m : model) (it : wasteItem) (d : DB) (r : result unit) :
  inputmode m = normal →
  at_index (waste m) (cursor m) = Some it →
  ExecDelete (db m) (id it) = (d, r) →
  Update m (KeyMsg "d") =
    match r with
    | Ok _ =>
        let w := delete (Z.to_nat (cursor m)) (waste m) in
        Done (set_cursor (Z.min (cursor m) (len w - 1)) (set_waste w (set_db d m)),
              CmdNil)
    | Err e =>
        Done (set_err (Some (Errorf "failed to delete item" e)) (set_db d m), CmdNil)
    end.
Proof.
  intros Hmode Hit Hex. pose proof (at_index_range _ _ _ Hit) as Hc.
  unfold Update. rewrite Hmode. unfold updateNormal, deleteWasteItem.
  literal_keys. rewrite bool_decide_true by lia. rewrite Hit, Hex.
  destruct r as [[]|e]; [|done]. cbn [waste set_db set_waste cursor].
  rewrite remove_at_delete by lia. cbv zeta.
  pose proof (len_delete (waste m) (cursor m) Hc) as Hl.
  case_bool_decide.
  - by rewrite Z.min_r by lia.
  - rewrite Z.min_l by lia.
    by rewrite <- (lb_set_cursor_same (set_waste _ _)).
Qed.

(** *** Moving the cursor *)

Lemma lb_up_step (m : model) (key : string) :
  inputmode m = normal → up_key key →
  Update m (KeyMsg key) =
    Done (if bool_decide (0 < cursor m) then set_cursor (cursor m - 1) m else m, CmdNil).
Proof.
  intros Hmode [-> | ->]; unfold Update; rewrite Hmode; unfold updateNormal;
    by literal_keys.
Qed.

Lemma lb_down_step (m : model) (key : string) :
  inputmode m = normal → down_key key →
  Update m (KeyMsg key) =
    Done (if bool_decide (cursor m < len (waste m) - 1)
          then set_cursor (cursor m + 1) m else m, CmdNil).
Proof.
  intros Hmode [-> | ->]; unfold Update; rewrite Hmode; unfold updateNormal;
    by literal_keys.
Qed.

(** One move: the mode and the list stay, the cursor moves by at most one
    and stays in range; it is clamped at both ends. *)
Lemma lb_move_step (m : model) (key : string) :
  inputmode m = normal → move_key key →
  ∃ m', Update m (KeyMsg key) = Done (m', CmdNil) ∧
        inputmode m' = normal ∧ waste m' = waste m ∧ db m' = db m ∧
        (0 ≤ cursor m < len (waste m) →
           0 ≤ cursor m' < len (waste m) ∧
           (up_key key → cursor m' = Z.max 0 (cursor m - 1)) ∧
           (down_key key → cursor m' = Z.min (len (waste m) - 1) (cursor m + 1))).
Proof.
  intros Hmode [Hk | Hk].
  - rewrite (lb_up_step m key Hmode Hk). eexists; split; [done|].
    assert (¬ down_key key) by (destruct Hk as [-> | ->]; intros [? | ?]; done).
    case_bool_decide; cbn; repeat split; try done; try lia; intros; done || lia.
  - rewrite (lb_down_step m key Hmode Hk). eexists; split; [done|].
    assert (¬ up_key key) by (destruct Hk as [-> | ->]; intros [? | ?]; done).
    case_bool_decide; cbn; repeat split; try done; try lia; intros; done || lia.
Qed.

Lemma lb_move_run (m : model) (keys : list string) :
  inputmode m = normal → Forall move_key keys →
  0 ≤ cursor m < len (waste m) →
  ∃ m', run m keys = Done m' ∧ inputmode m' = normal ∧ waste m' = waste m ∧
        db m' = db m ∧ 0 ≤ cursor m' < len (waste m').
Proof.
  intros Hmode Hkeys. revert m Hmode.
  induction Hkeys as [|key keys Hk _ IH]; intros m Hmode Hc.
  - by exists m.
  - destruct (lb_move_step m key Hmode Hk) as (m1 & Hstep & Hm1 & Hw1 & Hd1 & Hc1).
    destruct (Hc1 Hc) as [Hc1' _]. rewrite <- Hw1 in Hc1'.
    destruct (IH m1 Hm1 Hc1') as (m' & Hrun & ? & ? & ? & ?).
    exists m'. cbn [run]. rewrite Hstep. repeat split; congruence || lia.
Qed.

(** On an empty list the down keys change nothing. *)
Lemma lb_down_empty (m : model) (key : string) :
  inputmode m = normal → waste m = [] → -1 ≤ cursor m → down_key key →
  Update m (KeyMsg key) = Done (m, CmdNil).
Proof.
  intros Hmode Hw Hc Hk. rewrite (lb_down_step m key Hmode Hk), Hw.
  by rewrite bool_decide_false by (unfold len; cbn; lia).
Qed.

(** *** Leaving the form *)

Lemma lb_esc (m : model) :
  inputmode m ≠ normal →
  Update m (KeyMsg "esc") = Done (set_input "" (set_inputmode normal m), CmdNil).
Proof.
  intros Hmode. unfold Update, updateAddingText, updateAddingQuantity.
  destruct (inputmode m); by literal_keys.
Qed.

Lemma lb_text (m : model) (key : string) :
  inputmode m ≠ normal → text_key key →
  Update m (KeyMsg key) = Done (set_input (input m +:+ key) m, CmdNil).
Proof.
  intros Hmode [He Hc]. apply key_is_neq in He, Hc.
  unfold Update, updateAddingText, updateAddingQuantity.
  destruct (inputmode m); by rewrite ?He, ?Hc.
Qed.

Lemma lb_text_run (m : model) (keys : list string) :
  inputmode m ≠ normal → Forall text_key keys →
  run m keys = Done (set_input (foldl String.append (input m) keys) m).
Proof.
  intros Hmode Hkeys. revert m Hmode.
  induction Hkeys as [|key keys Hk _ IH]; intros m Hmode.
  - by destruct m.
  - cbn [run]. rewrite (lb_text m key Hmode Hk), IH by done. by destruct m.
Qed.

Lemma lb_add (m : model) :
  inputmode m = normal →
  Update m (KeyMsg "a") = Done (set_input "" (set_inputmode addingName m), CmdNil).
Proof.
  intros Hmode. unfold Update. rewrite Hmode. unfold updateNormal. by literal_keys.
Qed.

Lemma lb_text_then_esc (m : model) (keys : list string) :
  inputmode m ≠ normal → Forall text_key keys →
  run m (keys ++ ["esc"]) = Done (set_input "" (set_inputmode normal m)).
Proof.
  intros Hmode Hkeys. revert m Hmode.
  induction Hkeys as [|key keys Hk _ IH]; intros m Hmode.
  - cbn [app run]. by rewrite lb_esc.
  - cbn [app run]. rewrite (lb_text m key Hmode Hk), IH by done. by destruct m.
Qed.


(** *** Confirming a field *)

Lemma lb_quantity_confirm (m : model) :
  inputmode m = addingQuantity →
  Update m (KeyMsg "enter") =
    match ParseFloat (input m) with
    | Err e =>
        Done (set_input "" (set_err (Some (Errorf "invalid quantity entered" e)) m),
              CmdNil)
    | Ok q =>
        match at_index (waste m) (len (waste m) - 1) with
        | Some it =>
            Done (set_input ""
                    (set_err None
                       (set_inputmode addingWasteType
                          (set_waste (<[last_index m := with_quantity q it]> (waste m)) m))),
                  CmdNil)
        | None => Panic
        end
    end.
Proof.
  intros Hmode. unfold Update. rewrite Hmode. unfold updateAddingQuantity.
  literal_keys. destruct (ParseFloat (input m)); [|done].
  unfold modify_at. by destruct (at_index _ _).
Qed.

(** Confirm on the last field: the method goes into the last item, the
    insert runs on its five fields, and the mode is [normal] whatever the
    store answers. *)
Lemma lb_method_confirm (m : model) (it : wasteItem) (d : DB) (r : result sqlResult) :
  inputmode m = addingMethod →
  at_index (waste m) (len (waste m) - 1) = Some it →
  ExecInsert (db m) (name it) (quantity it) (wasteType it) (location it) (input m) = (d, r) →
  Update m (KeyMsg "enter") =
    let w := <[last_index m := with_method (input m) it]> (waste m) in
    let failed e :=
      Done (set_input ""
              (set_inputmode normal
                 (set_err (Some (Errorf "failed to add item" e))
                    (set_waste w (set_db d m)))), CmdNil) in
    match r with
    | Err e => failed e
    | Ok res =>
        match LastInsertId res with
        | Err e => failed e
        | Ok i =>
            let it' := {| id := i; name := name it; quantity := quantity it;
                          wasteType := wasteType it; location := location it;
                          method := input m |} in
            Done (set_input ""
                    (set_inputmode normal
                       (set_waste (<[last_index m := it']> (waste m)) (set_db d m))),
                  CmdNil)
        end
    end.
Proof.
  intros Hmode Hit Hex. pose proof (at_index_range _ _ _ Hit) as Hr.
  unfold Update. rewrite Hmode. unfold updateAddingText. rewrite Hmode.
  literal_keys. unfold modify_at. rewrite Hit. cbn [mbind outcome_bind].
  cbn [waste set_waste]. rewrite len_insert.
  assert (Hnew : at_index (<[Z.to_nat (len (waste m) - 1) := with_method (input m) it]> (waste m))
                   (len (waste m) - 1) = Some (with_method (input m) it)).
  { apply at_index_Some. split; [lia|]. apply list_lookup_insert_eq. unfold len in *. lia. }
  rewrite Hnew. unfold addWasteItem. cbn [db set_waste waste name quantity wasteType
    location method with_method]. rewrite Hex.
  destruct r as [res|e]; [|done].
  destruct (LastInsertId res) as [i|e]; [|done].
  unfold store_at. rewrite len_insert, Hnew. cbn.
  unfold last_index. by rewrite list_insert_insert_eq.
Qed.

Lemma lb_name_confirm (m : model) :
  inputmode m = addingName →
  Update m (KeyMsg "enter") =
    Done (set_input ""
            (set_inputmode addingQuantity
               (set_waste (waste m ++ [pending (input m)]) m)), CmdNil).
Proof.
  intros Hmode. unfold Update. rewrite Hmode. unfold updateAddingText.
  rewrite Hmode. by literal_keys.
Qed.

Lemma lb_type_confirm (m : model) :
  inputmode m = addingWasteType →
  Update m (KeyMsg "enter") =
    match at_index (waste m) (len (waste m) - 1) with
    | Some it =>
        Done (set_input ""
                (set_inputmode addingLocation
                   (set_waste (<[last_index m := with_wasteType (input m) it]> (waste m)) m)),
              CmdNil)
    | None => Panic
    end.
Proof.
  intros Hmode. unfold Update. rewrite Hmode. unfold updateAddingText.
  rewrite Hmode. literal_keys. unfold modify_at. by destruct (at_index _ _).
Qed.

Lemma lb_location_confirm (m : model) :
  inputmode m = addingLocation →
  Update m (KeyMsg "enter") =
    match at_index (waste m) (len (waste m) - 1) with
    | Some it =>
        Done (set_input ""
                (set_inputmode addingMethod
                   (set_waste (<[last_index m := with_location (input m) it]> (waste m)) m)),
              CmdNil)
    | None => Panic
    end.
Proof.
  intros Hmode. unfold Update. rewrite Hmode. unfold updateAddingText.
  rewrite Hmode. literal_keys. unfold modify_at. by destruct (at_index _ _).
Qed.

Lemma lb_method_confirm_empty (m : model) :
  inputmode m = addingMethod →
  at_index (waste m) (len (waste m) - 1) = None →
  Update m (KeyMsg "enter") = Panic.
Proof.
  intros Hmode Hit. unfold Update. rewrite Hmode. unfold updateAddingText.
  rewrite Hmode. literal_keys. unfold modify_at. by rewrite Hit.
Qed.

(** In the form every key but [enter] leaves list, store, cursor and error. *)
Lemma lb_form_other_key (m : model) (key : string) :
  inputmode m ≠ normal → key ≠ "enter" →
  ∃ m', Update m (KeyMsg key) = Done (m', CmdNil) ∧ waste m' = waste m ∧
        db m' = db m ∧ cursor m' = cursor m ∧ err m' = err m.
Proof.
  intros Hmode Hkey. destruct (decide (key = "esc")) as [-> | Hesc].
  - rewrite lb_esc by done. by eexists.
  - rewrite lb_text by done. by eexists.
Qed.

(** In the list every key but [d] leaves list, store and error. *)
Lemma lb_list_other_key (m m' : model) (key : string) (c : Cmd) :
  inputmode m = normal → key ≠ "d" → Update m (KeyMsg key) = Done (m', c) →
  waste m' = waste m ∧ db m' = db m ∧ err m' = err m.
Proof.
  intros Hmode Hkey Hstep. unfold Update in Hstep. rewrite Hmode in Hstep.
  unfold updateNormal in Hstep.
  key_cases key in Hstep; by (simplify_eq; repeat case_bool_decide).
Qed.

Lemma lb_delete_unselected (m : model) :
  inputmode m = normal → at_index (waste m) (cursor m) = None →
  Update m (KeyMsg "d") =
    if bool_decide (0 < len (waste m)) then Panic else Done (m, CmdNil).
Proof.
  intros Hmode Hit. unfold Update. rewrite Hmode. unfold updateNormal.
  literal_keys. by rewrite Hit.
Qed.

(** *** What changes the list *)

Lemma lb_waste_changes (m m' : model) (key : string) (c : Cmd) :
  Update m (KeyMsg key) = Done (m', c) → waste m' ≠ waste m →
  (inputmode m = normal ∧ key = "d" ∧
     ∃ it d, at_index (waste m) (cursor m) = Some it ∧
             ExecDelete (db m) (id it) = (d, Ok tt) ∧
             waste m' = delete (Z.to_nat (cursor m)) (waste m))
  ∨ (inputmode m = addingName ∧ key = "enter" ∧ db m' = db m ∧
       waste m' = waste m ++ [pending (input m)])
  ∨ (inputmode m ≠ normal ∧ inputmode m ≠ addingName ∧ key = "enter" ∧
       ∃ it, waste m' = <[last_index m := it]> (waste m)).
Proof.
  intros Hstep Hw. destruct (decide (inputmode m = normal)) as [Hmode | Hmode].
  - left. destruct (decide (key = "d")) as [-> | Hkey].
    2:{ by destruct (lb_list_other_key m m' key c Hmode Hkey Hstep) as [? _]. }
    destruct (at_index (waste m) (cursor m)) as [it|] eqn:Hit.
    2:{ rewrite lb_delete_unselected in Hstep by done.
        case_bool_decide; by simplify_eq. }
    destruct (ExecDelete (db m) (id it)) as [d r] eqn:Hex.
    rewrite (lb_delete_selected m it d r Hmode Hit Hex) in Hstep.
    destruct r as [[]|e]; [|by simplify_eq]. cbn in Hstep. simplify_eq.
    repeat split; try done. by exists it, d.
  - right. destruct (decide (key = "enter")) as [-> | Hkey].
    2:{ destruct (lb_form_other_key m key Hmode Hkey) as (m1 & Hm1 & ? & _).
        rewrite Hm1 in Hstep. by simplify_eq. }
    destruct (inputmode m) eqn:Hm; [done|left|right..].
    + rewrite lb_name_confirm in Hstep by done. by simplify_eq.
    + rewrite lb_quantity_confirm in Hstep by done.
      destruct (ParseFloat _); [|by simplify_eq].
      destruct (at_index _ _); simplify_eq. repeat split; try done. by eexists.
    + rewrite lb_type_confirm in Hstep by done.
      destruct (at_index _ _); simplify_eq. repeat split; try done. by eexists.
    + rewrite lb_location_confirm in Hstep by done.
      destruct (at_index _ _); simplify_eq. repeat split; try done. by eexists.
    + destruct (at_index (waste m) (len (waste m) - 1)) as [it|] eqn:Hit.
      2:{ by rewrite lb_method_confirm_empty in Hstep. }
      destruct (ExecInsert (db m) (name it) (quantity it) (wasteType it) (location it)
                  (input m)) as [d r] eqn:Hex.
      rewrite (lb_method_confirm m it d r Hm Hit Hex) in Hstep.
      repeat split; try done.
      destruct r as [res|e]; [destruct (LastInsertId res)|]; cbn in Hstep; simplify_eq;
        by eexists.
Qed.

(** *** The error slot *)

(** An error that is set goes away only on a quantity that parses. *)
Lemma lb_err_cleared (m m' : model) (key : string) (c : Cmd) :
  Update m (KeyMsg key) = Done (m', c) → err m ≠ None → err m' = None →
  inputmode m = addingQuantity ∧ key = "enter" ∧ ∃ q, ParseFloat (input m) = Ok q.
Proof.
  intros Hstep He He'. destruct (decide (inputmode m = normal)) as [Hmode | Hmode].
  - exfalso. destruct (decide (key = "d")) as [-> | Hkey].
    2:{ destruct (lb_list_other_key m m' key c Hmode Hkey Hstep) as (_ & _ & ?).
        congruence. }
    destruct (at_index (waste m) (cursor m)) as [it|] eqn:Hit.
    2:{ rewrite lb_delete_unselected in Hstep by done.
        case_bool_decide; by simplify_eq. }
    destruct (ExecDelete (db m) (id it)) as [d r] eqn:Hex.
    rewrite (lb_delete_selected m it d r Hmode Hit Hex) in Hstep.
    destruct r as [[]|e]; cbn in Hstep; by simplify_eq.
  - destruct (decide (key = "enter")) as [-> | Hkey].
    2:{ destruct (lb_form_other_key m key Hmode Hkey) as (m1 & Hm1 & _ & _ & _ & ?).
        rewrite Hm1 in Hstep. simplify_eq. congruence. }
    destruct (inputmode m) eqn:Hm; [done|exfalso| |exfalso..].
    + rewrite lb_name_confirm in Hstep by done. by simplify_eq.
    + rewrite lb_quantity_confirm in Hstep by done.
      destruct (ParseFloat _) as [q|e]; [|by simplify_eq]. eauto.
    + rewrite lb_type_confirm in Hstep by done. destruct (at_index _ _); by simplify_eq.
    + rewrite lb_location_confirm in Hstep by done.
      destruct (at_index _ _); by simplify_eq.
    + destruct (at_index (waste m) (len (waste m) - 1)) as [it|] eqn:Hit.
      2:{ by rewrite lb_method_confirm_empty in Hstep. }
      destruct (ExecInsert (db m) (name it) (quantity it) (wasteType it) (location it)
                  (input m)) as [d r] eqn:Hex.
      rewrite (lb_method_confirm m it d r Hm Hit Hex) in Hstep.
      destruct r as [res|e]; [destruct (LastInsertId res)|]; cbn in Hstep; by simplify_eq.
Qed.

End Facts.
End LinebufFacts.

(** ** The textinput variant *)

Module TextinputFacts.
Import Textinput.
Section Facts.
Context {host : Host}.

Lemma ti_set_cursor_same (m : model) : set_cursor (cursor m) m = m.
Proof. by destruct m. Qed.

(** The [delete] key on a selected item, as in the other variant. *)
Lemma ti_delete_selected (m : model) (it : wasteItem) (d : DB) (r : result unit) :
  inputmode m = normal →
  at_index (waste m) (cursor m) = Some it →
  ExecDelete (db m) (id it) = (d, r) →
  Update m (KeyMsg "d") =
    match r with
    | Ok _ =>
        let w := delete (Z.to_nat (cursor m)) (waste m) in
        Done (set_cursor (Z.min (cursor m) (len w - 1)) (set_waste w (set_db d m)),
              CmdNil)
    | Err e =>
        Done (set_err (Some (Errorf "failed to delete item" e)) (set_db d m), CmdNil)
    end.
Proof.
  intros Hmode Hit Hex. pose proof (at_index_range _ _ _ Hit) as Hc.
  unfold Update. rewrite Hmode. unfold updateNormal, deleteWasteItem.
  literal_keys. rewrite bool_decide_true by lia. rewrite Hit, Hex.
  destruct r as [[]|e]; [|done]. cbn [waste set_db set_waste cursor].
  rewrite remove_at_delete by lia. cbv zeta.
  pose proof (len_delete (waste m) (cursor m) Hc) as Hl.
  case_bool_decide.
  - by rewrite Z.min_r by lia.
  - rewrite Z.min_l by lia.
    by rewrite <- (ti_set_cursor_same (set_waste _ _)).
Qed.

Lemma ti_delete_unselected (m : model) :
  inputmode m = normal → at_index (waste m) (cursor m) = None →
  Update m (KeyMsg "d") =
    if bool_decide (0 < len (waste m)) then Panic else Done (m, CmdNil).
Proof.
  intros Hmode Hit. unfold Update. rewrite Hmode. unfold updateNormal.
  literal_keys. by rewrite Hit.
Qed.

(** *** The arrow keys *)

(** In the list every key but [d] leaves list, cursor, store, error and
    the texts of the inputs; only [a] leaves the list mode. *)
Lemma ti_list_other_key (m : model) (key : string) :
  inputmode m = normal → key ≠ "d" → inputs m ≠ [] →
  ∃ m' c, Update m (KeyMsg key) = Done (m', c) ∧
          waste m' = waste m ∧ cursor m' = cursor m ∧ db m' = db m ∧
          err m' = err m ∧ Value <$> inputs m' = Value <$> inputs m ∧
          (key ≠ "a" → inputmode m' = normal ∧ inputs m' ≠ []).
Proof.
  intros Hmode Hkey Hin. unfold Update. rewrite Hmode. unfold updateNormal.
  assert (Himap : ∀ (f : nat → bool) (l : list textinput),
            Value <$> imap (λ i t, if f i then Focus t else Blur t) l = Value <$> l).
  { intros f l. revert f. induction l as [|t l IH]; intros f; [done|].
    cbn [imap fmap list_fmap]. f_equal; [by destruct (f 0%nat)|]. apply IH. }
  assert (Hnil : ∀ (f : nat → bool) (l : list textinput),
            l ≠ [] → imap (λ i t, if f i then Focus t else Blur t) l ≠ []).
  { intros f [|t l]; done. }
  destruct (inputs m) as [|t ins] eqn:Hi; [done|].
  key_cases key; simplify_eq; cbn [mbind outcome_bind modify_at at_index];
    try (eexists _, _; split; [reflexivity|]);
    repeat case_bool_decide; cbn; rewrite ?Hi; repeat split; try done;
    try apply (Himap _ (t :: ins)); try by apply (Hnil _ (t :: ins)).
  eexists _, _. split; [reflexivity|]. cbn. by rewrite ?Hi.
Qed.

(** The arrow and tab keys move the focus index; list and cursor stay. *)
Lemma ti_focus_step (m : model) (key : string) :
  inputmode m = normal → focus_key key →
  ∃ m' cs, Update m (KeyMsg key) = Done (m', CmdBatch cs) ∧
           inputmode m' = normal ∧ waste m' = waste m ∧ cursor m' = cursor m ∧
           db m' = db m ∧ err m' = err m.
Proof.
  intros Hmode Hk. unfold Update. rewrite Hmode. unfold updateNormal.
  destruct Hk as [-> | [-> | [-> | ->]]]; literal_keys;
    (eexists _, _; split; [reflexivity|]); cbn; by repeat case_bool_decide.
Qed.

Lemma ti_focus_run (m : model) (keys : list string) :
  inputmode m = normal → Forall focus_key keys →
  ∃ m', run m keys = Done m' ∧ inputmode m' = normal ∧ waste m' = waste m ∧
        cursor m' = cursor m ∧ db m' = db m ∧ err m' = err m.
Proof.
  intros Hmode Hkeys. revert m Hmode.
  induction Hkeys as [|key keys Hk _ IH]; intros m Hmode.
  - by exists m.
  - destruct (ti_focus_step m key Hmode Hk) as (m1 & cs & Hstep & Hm1 & ? & ? & ? & ?).
    destruct (IH m1 Hm1) as (m' & Hrun & ? & ? & ? & ? & ?).
    exists m'. cbn [run]. rewrite Hstep. repeat split; congruence.
Qed.

(** *** The form *)

Lemma ti_esc (m : model) :
  inputmode m ≠ normal →
  Update m (KeyMsg "esc") = Done (set_focusIndex 0 (set_inputmode normal m), CmdNil).
Proof.
  intros Hmode. unfold Update, updateAdding. destruct (inputmode m); by literal_keys.
Qed.

(** In the form a key that is neither [enter] nor [esc] does nothing: no
    text reaches the inputs. *)
Lemma ti_text (m : model) (key : string) :
  inputmode m ≠ normal → text_key key →
  Update m (KeyMsg key) = Done (m, CmdNil).
Proof.
  intros Hmode [He Hc]. apply key_is_neq in He, Hc.
  unfold Update, updateAdding. destruct (inputmode m); by rewrite ?He, ?Hc.
Qed.




Lemma ti_focus_values (ins : list textinput) (i : nat) (t : textinput) :
  ins !! i = Some t → Value <$> <[i := Focus t]> ins = Value <$> ins.
Proof.
  intros Hi. rewrite list_fmap_insert. cbn.
  apply list_insert_id. by rewrite list_lookup_fmap, Hi.
Qed.

(** Confirm on a field before the last one: the focus moves on, nothing is
    parsed, the error stays. *)
Lemma ti_enter_advance (m : model) :
  inputmode m ≠ normal → focusIndex m < len (inputs m) - 1 →
  Update m (KeyMsg "enter") =
    match at_index (inputs m) (focusIndex m + 1) with
    | Some t =>
        Done (set_inputs (<[Z.to_nat (focusIndex m + 1) := Focus t]> (inputs m))
                (set_focusIndex (focusIndex m + 1) m), CmdBlink)
    | None => Panic
    end.
Proof.
  intros Hmode Hf.
  assert (updateAdding m "enter" =
    match at_index (inputs m) (focusIndex m + 1) with
    | Some t =>
        Done (set_inputs (<[Z.to_nat (focusIndex m + 1) := Focus t]> (inputs m))
                (set_focusIndex (focusIndex m + 1) m), CmdBlink)
    | None => Panic
    end) as Hup.
  { unfold updateAdding. literal_keys. rewrite bool_decide_true by done.
    unfold modify_at. cbn [inputs set_focusIndex focusIndex].
    by destruct (at_index _ _). }
  unfold Update. by destruct (inputmode m).
Qed.

(** Confirm on the last field submits. *)
Lemma ti_enter_submit (m : model) :
  inputmode m ≠ normal → len (inputs m) - 1 ≤ focusIndex m →
  Update m (KeyMsg "enter") = submitWasteItem m.
Proof.
  intros Hmode Hf.
  assert (updateAdding m "enter" = submitWasteItem m) as Hup.
  { unfold updateAdding. literal_keys. by rewrite bool_decide_false by lia. }
  unfold Update. by destruct (inputmode m).
Qed.

Lemma ti_submit_parse_failure (m : model) (t1 : textinput) (e : string) :
  at_index (inputs m) 1 = Some t1 → ParseFloat (Value t1) = Err e →
  submitWasteItem m = Done (set_err (Some (Errorf "invalid quantity" e)) m, CmdNil).
Proof.
  intros Ht He. unfold submitWasteItem, get_at. rewrite Ht. cbn. by rewrite He.
Qed.

(** A submission whose quantity parses, by the answer of the store. *)
Lemma ti_submit_parsed (m : model) (t0 t1 t2 t3 t4 : textinput) (q : float)
    (d : DB) (r : result sqlResult) :
  inputs m = [t0; t1; t2; t3; t4] → ParseFloat (Value t1) = Ok q →
  ExecInsert (db m) (Value t0) q (Value t2) (Value t3) (Value t4) = (d, r) →
  submitWasteItem m =
    let failed e :=
      Done (set_err (Some (Errorf "failed to add item" e)) (set_db d m), CmdNil) in
    match r with
    | Err e => failed e
    | Ok res =>
        match LastInsertId res with
        | Err e => failed e
        | Ok i =>
            match at_index (waste m) (len (waste m) - 1) with
            | None => Panic
            | Some _ =>
                Done (set_focusIndex 0
                        (set_inputs (SetValue "" <$> inputs m)
                           (set_inputmode normal
                              (set_waste (<[Z.to_nat (len (waste m) - 1) :=
                                             form_item q t0 t2 t3 t4 i]> (waste m))
                                 (set_db d m)))), CmdNil)
            end
        end
    end.
Proof.
  intros Hin Hq Hex. unfold submitWasteItem, get_at. rewrite Hin.
  change (at_index [t0; t1; t2; t3; t4] 0) with (Some t0).
  change (at_index [t0; t1; t2; t3; t4] 1) with (Some t1).
  change (at_index [t0; t1; t2; t3; t4] 2) with (Some t2).
  change (at_index [t0; t1; t2; t3; t4] 3) with (Some t3).
  change (at_index [t0; t1; t2; t3; t4] 4) with (Some t4).
  cbn [mbind outcome_bind]. rewrite Hq. cbn [mbind outcome_bind].
  unfold addWasteItem. cbn [name quantity wasteType location method]. rewrite Hex.
  destruct r as [res|e].
  2:{ cbn. destruct m; cbn in *. by subst. }
  destruct (LastInsertId res) as [i|e].
  2:{ cbn. destruct m; cbn in *. by subst. }
  unfold store_at. destruct (at_index (waste m) (len (waste m) - 1)); [|done].
  cbn. by rewrite Hin.
Qed.

(** What a submission that returns has done: either it failed (the
    quantity did not parse, or the store refused) and only store and error
    changed, or the store inserted the item and the last element of the list
    was overwritten by it. *)
Lemma ti_submit_cases (m m' : model) (c : Cmd) :
  submitWasteItem m = Done (m', c) →
  (waste m' = waste m ∧ inputmode m' = inputmode m ∧ focusIndex m' = focusIndex m ∧
     inputs m' = inputs m ∧ cursor m' = cursor m ∧
     ∃ e, err m' = Some e)
  ∨ (∃ t0 t1 t2 t3 t4 q d res i,
       at_index (inputs m) 0 = Some t0 ∧ at_index (inputs m) 1 = Some t1 ∧
       at_index (inputs m) 2 = Some t2 ∧ at_index (inputs m) 3 = Some t3 ∧
       at_index (inputs m) 4 = Some t4 ∧ ParseFloat (Value t1) = Ok q ∧
       ExecInsert (db m) (Value t0) q (Value t2) (Value t3) (Value t4) = (d, Ok res) ∧
       LastInsertId res = Ok i ∧
       0 < len (waste m) ∧
       waste m' = <[Z.to_nat (len (waste m) - 1) := form_item q t0 t2 t3 t4 i]> (waste m) ∧
       db m' = d ∧ err m' = err m ∧ cursor m' = cursor m ∧ inputmode m' = normal ∧
       focusIndex m' = 0 ∧ inputs m' = SetValue "" <$> inputs m).
Proof.
  unfold submitWasteItem, get_at. intros Hsub.
  destruct (at_index (inputs m) 1) as [t1|] eqn:H1; [|done].
  cbn [mbind outcome_bind] in Hsub.
  destruct (ParseFloat (Value t1)) as [q|e] eqn:Hq.
  2:{ left. simplify_eq. cbn. eauto 10. }
  destruct (at_index (inputs m) 0) as [t0|] eqn:H0; [|done].
  destruct (at_index (inputs m) 2) as [t2|] eqn:H2; [|done].
  destruct (at_index (inputs m) 3) as [t3|] eqn:H3; [|done].
  destruct (at_index (inputs m) 4) as [t4|] eqn:H4; [|done].
  cbn [mbind outcome_bind] in Hsub. unfold addWasteItem in Hsub.
  cbn [name quantity wasteType location method] in Hsub.
  destruct (ExecInsert (db m) (Value t0) q (Value t2) (Value t3) (Value t4))
    as [d r] eqn:Hex.
  destruct r as [res|e].
  2:{ left. cbn in Hsub. simplify_eq. cbn. eauto 10. }
  destruct (LastInsertId res) as [i|e] eqn:Hid.
  2:{ left. cbn in Hsub. simplify_eq. cbn. eauto 10. }
  unfold store_at in Hsub.
  destruct (at_index (waste m) (len (waste m) - 1)) as [old|] eqn:Hold; [|done].
  apply at_index_range in Hold.
  right. cbn in Hsub. simplify_eq. exists t0, t1, t2, t3, t4, q, d, res, i.
  cbn. repeat split; try done. lia.
Qed.

(** In the list every key but [d] leaves list, store and error. *)
Lemma ti_list_key_keeps (m m' : model) (key : string) (c : Cmd) :
  inputmode m = normal → key ≠ "d" → Update m (KeyMsg key) = Done (m', c) →
  waste m' = waste m ∧ db m' = db m ∧ err m' = err m ∧ cursor m' = cursor m.
Proof.
  intros Hmode Hkey Hstep. unfold Update in Hstep. rewrite Hmode in Hstep.
  unfold updateNormal, modify_at in Hstep.
  key_cases key in Hstep; simplify_eq; try done;
    repeat case_bool_decide; try done.
  cbn [inputs set_focusIndex set_inputmode] in Hstep.
  destruct (at_index (inputs m) 0); cbn in Hstep; by simplify_eq.
Qed.

(** In the form every key but [enter] leaves list, store, cursor, error
    and inputs. *)
Lemma ti_form_key_keeps (m : model) (key : string) :
  inputmode m ≠ normal → key ≠ "enter" →
  ∃ m', Update m (KeyMsg key) = Done (m', CmdNil) ∧ waste m' = waste m ∧
        db m' = db m ∧ cursor m' = cursor m ∧ err m' = err m ∧
        inputs m' = inputs m.
Proof.
  intros Hmode Hkey. destruct (decide (key = "esc")) as [-> | Hesc].
  - rewrite ti_esc by done. by eexists.
  - rewrite ti_text by done. by eexists.
Qed.

(** *** What changes the list *)

Lemma ti_waste_changes (m m' : model) (key : string) (c : Cmd) :
  Update m (KeyMsg key) = Done (m', c) → waste m' ≠ waste m →
  (inputmode m = normal ∧ key = "d" ∧
     ∃ it d, at_index (waste m) (cursor m) = Some it ∧
             ExecDelete (db m) (id it) = (d, Ok tt) ∧
             waste m' = delete (Z.to_nat (cursor m)) (waste m))
  ∨ (inputmode m ≠ normal ∧ key = "enter" ∧
       ∃ t0 t1 t2 t3 t4 q d res i,
         at_index (inputs m) 0 = Some t0 ∧ at_index (inputs m) 1 = Some t1 ∧
         at_index (inputs m) 2 = Some t2 ∧ at_index (inputs m) 3 = Some t3 ∧
         at_index (inputs m) 4 = Some t4 ∧ ParseFloat (Value t1) = Ok q ∧
         ExecInsert (db m) (Value t0) q (Value t2) (Value t3) (Value t4) = (d, Ok res) ∧
         LastInsertId res = Ok i ∧
         waste m' = <[Z.to_nat (len (waste m) - 1) := form_item q t0 t2 t3 t4 i]> (waste m)).
Proof.
  intros Hstep Hw. destruct (decide (inputmode m = normal)) as [Hmode | Hmode].
  - left. destruct (decide (key = "d")) as [-> | Hkey].
    2:{ by destruct (ti_list_key_keeps m m' key c Hmode Hkey Hstep) as [? _]. }
    destruct (at_index (waste m) (cursor m)) as [it|] eqn:Hit.
    2:{ rewrite ti_delete_unselected in Hstep by done.
        case_bool_decide; by simplify_eq. }
    destruct (ExecDelete (db m) (id it)) as [d r] eqn:Hex.
    rewrite (ti_delete_selected m it d r Hmode Hit Hex) in Hstep.
    destruct r as [[]|e]; [|by simplify_eq]. cbn in Hstep. simplify_eq.
    repeat split; try done. by exists it, d.
  - right. destruct (decide (key = "enter")) as [-> | Hkey].
    2:{ destruct (ti_form_key_keeps m key Hmode Hkey) as (m1 & Hm1 & ? & _).
        rewrite Hm1 in Hstep. by simplify_eq. }
    destruct (decide (focusIndex m < len (inputs m) - 1)) as [Hf | Hf].
    { rewrite ti_enter_advance in Hstep by done.
      destruct (at_index _ _); by simplify_eq. }
    rewrite ti_enter_submit in Hstep by (done || lia).
    destruct (ti_submit_cases m m' c Hstep) as [(? & _) | Hok]; [done|].
    destruct Hok as (t0 & t1 & t2 & t3 & t4 & q & d & res & i & Hok).
    repeat split; try done. exists t0, t1, t2, t3, t4, q, d, res, i.
    intuition.
Qed.

(** *** The error slot *)

(** No key takes an error away. *)
Lemma ti_err_kept (m m' : model) (key : string) (c : Cmd) :
  Update m (KeyMsg key) = Done (m', c) → err m ≠ None → err m' ≠ None.
Proof.
  intros Hstep He. destruct (decide (inputmode m = normal)) as [Hmode | Hmode].
  - destruct (decide (key = "d")) as [-> | Hkey].
    2:{ destruct (ti_list_key_keeps m m' key c Hmode Hkey Hstep) as (_ & _ & ? & _).
        congruence. }
    destruct (at_index (waste m) (cursor m)) as [it|] eqn:Hit.
    2:{ rewrite ti_delete_unselected in Hstep by done.
        case_bool_decide; by simplify_eq. }
    destruct (ExecDelete (db m) (id it)) as [d r] eqn:Hex.
    rewrite (ti_delete_selected m it d r Hmode Hit Hex) in Hstep.
    destruct r as [[]|e]; cbn in Hstep; by simplify_eq.
  - destruct (decide (key = "enter")) as [-> | Hkey].
    2:{ destruct (ti_form_key_keeps m key Hmode Hkey) as (m1 & Hm1 & _ & _ & _ & ? & _).
        rewrite Hm1 in Hstep. simplify_eq. congruence. }
    destruct (decide (focusIndex m < len (inputs m) - 1)) as [Hf | Hf].
    { rewrite ti_enter_advance in Hstep by done.
      destruct (at_index _ _); by simplify_eq. }
    rewrite ti_enter_submit in Hstep by (done || lia).
    destruct (ti_submit_cases m m' c Hstep) as [(_ & _ & _ & _ & _ & e & ->) | Hok];
      [done|].
    destruct Hok as (t0 & t1 & t2 & t3 & t4 & q & d & res & i & Hok).
    assert (err m' = err m) as -> by intuition. done.
Qed.

(** *** The texts of the inputs *)

Lemma ti_blank_values (m m' : model) :
  Value <$> inputs m' = Value <$> inputs m → blank m → blank m'.
Proof.
  unfold blank. intros Heq Hb.
  apply (Forall_fmap Value (λ s, s = "")) in Hb.
  apply (Forall_fmap Value (λ s, s = "")). by rewrite Heq.
Qed.

(** No message puts text into a field: the fields of a blank form stay
    blank, whatever arrives. *)
Lemma ti_blank_step (m m' : model) (msg : Msg) (c : Cmd) :
  blank m → Update m msg = Done (m', c) → blank m'.
Proof.
  intros Hb Hstep. destruct msg as [key|]; [|by cbn in Hstep; simplify_eq].
  destruct (decide (inputmode m = normal)) as [Hmode | Hmode].
  - destruct (decide (key = "d")) as [-> | Hkey].
    + destruct (at_index (waste m) (cursor m)) as [it|] eqn:Hit.
      2:{ rewrite ti_delete_unselected in Hstep by done.
          case_bool_decide; by simplify_eq. }
      destruct (ExecDelete (db m) (id it)) as [d r] eqn:Hex.
      rewrite (ti_delete_selected m it d r Hmode Hit Hex) in Hstep.
      destruct r as [[]|e]; cbn in Hstep; by simplify_eq.
    + destruct (inputs m) as [|t ins] eqn:Hi.
      * unfold Update in Hstep. rewrite Hmode in Hstep.
        unfold updateNormal, modify_at, blank in *. rewrite Hi in *.
        key_cases key in Hstep; simplify_eq; cbn; try done;
          repeat case_bool_decide; cbn; rewrite ?Hi; try done.
        cbn [inputs set_focusIndex set_inputmode] in Hstep. by rewrite Hi in Hstep.
      * destruct (ti_list_other_key m key Hmode Hkey) as (m1 & c1 & Hm1 & Hrest);
          [by rewrite Hi|].
        rewrite Hm1 in Hstep. simplify_eq.
        apply (ti_blank_values m); [|done]. intuition.
  - destruct (decide (key = "enter")) as [-> | Hkey].
    2:{ destruct (ti_form_key_keeps m key Hmode Hkey) as (m1 & Hm1 & _ & _ & _ & _ & Hin).
        rewrite Hm1 in Hstep. simplify_eq. unfold blank. by rewrite Hin. }
    destruct (decide (focusIndex m < len (inputs m) - 1)) as [Hf | Hf].
    { rewrite ti_enter_advance in Hstep by done.
      destruct (at_index _ _) as [t|] eqn:Ht; simplify_eq.
      apply (ti_blank_values m); [|done]. cbn.
      apply ti_focus_values. by apply at_index_Some in Ht as [_ ?]. }
    rewrite ti_enter_submit in Hstep by (done || lia).
    destruct (ti_submit_cases m m' c Hstep) as [(_ & _ & _ & Hin & _) | Hok].
    { unfold blank. by rewrite Hin. }
    destruct Hok as (t0 & t1 & t2 & t3 & t4 & q & d & res & i & Hok).
    assert (inputs m' = SetValue "" <$> inputs m) as Hin by intuition.
    unfold blank. rewrite Hin. apply Forall_fmap. by apply Forall_true.
Qed.

(** The started program is blank, and so is every state a run reaches. *)
Lemma ti_blank_initial (d : DB) (m : model) : initialModel d = Ok m → blank m.
Proof.
  unfold initialModel. destruct (Query d); intros; simplify_eq.
  unfold blank. cbn. by repeat constructor.
Qed.

Lemma ti_blank_run (m m' : model) (keys : list string) :
  blank m → run m keys = Done m' → blank m'.
Proof.
  revert m. induction keys as [|key keys IH]; intros m Hb Hrun; cbn [run] in Hrun.
  - by simplify_eq.
  - destruct (Update m (KeyMsg key)) as [[m1 c]|] eqn:Hstep; [|by simplify_eq].
    pose proof (ti_blank_step m m1 (KeyMsg key) c Hb Hstep) as Hb1.
    destruct c; simplify_eq; eauto.
Qed.

End Facts.
End TextinputFacts.

(** ** Sample runs *)

Example lb_boot_initial (items : list wasteItem) (fs : list bool) :
  Linebuf.initialModel (host := Mem.host) (Mem.holding items fs)
  = Ok (Sample.lb_boot items fs).
Proof. reflexivity. Qed.

Example ti_boot_initial (items : list wasteItem) (fs : list bool) :
  Textinput.initialModel (host := Mem.host) (Mem.holding items fs)
  = Ok (Sample.ti_boot items fs).
Proof. reflexivity. Qed.

Example parse_decimal_3_2 : Mem.parse_decimal "3.2" = Ok 3.2%float.
Proof. reflexivity. Qed.

Example parse_decimal_12_5 : Mem.parse_decimal "12.5" = Ok 12.5%float.
Proof. reflexivity. Qed.

Example parse_decimal_abc : Mem.parse_decimal "abc" = Err (Mem.syntax_error "abc").
Proof. reflexivity. Qed.

Example parse_decimal_empty : Mem.parse_decimal "" = Err (Mem.syntax_error "").
Proof. reflexivity. Qed.

(** * The claims *)

Section Claims.
Context {host : Host}.

(** C3. The [d] key in list mode, on the item the cursor selects, runs the
    store delete on that item's identifier.  When the store succeeds the item
    leaves the list and the cursor becomes [min cursor (len list - 1)], which
    is [-1] (no selection) on the list that became empty and a valid index
    otherwise.  When the store fails the error slot holds the delete-failure
    message, and list and cursor are what they were.  Both variants. *)
Theorem delete_selected_item :
  (∀ (m : Linebuf.model) (it : wasteItem) (d : DB) (r : result unit),
     Linebuf.inputmode m = normal →
     at_index (Linebuf.waste m) (Linebuf.cursor m) = Some it →
     ExecDelete (Linebuf.db m) (id it) = (d, r) →
     ∃ m', Linebuf.Update m (KeyMsg "d") = Done (m', CmdNil) ∧
           Linebuf.db m' = d ∧ Linebuf.inputmode m' = normal ∧
           match r with
           | Ok _ =>
               Linebuf.waste m' = delete (Z.to_nat (Linebuf.cursor m)) (Linebuf.waste m) ∧
               Linebuf.cursor m' = Z.min (Linebuf.cursor m) (len (Linebuf.waste m') - 1) ∧
               (Linebuf.waste m' = [] → Linebuf.cursor m' = -1) ∧
               (Linebuf.waste m' ≠ [] → 0 ≤ Linebuf.cursor m' < len (Linebuf.waste m')) ∧
               Linebuf.err m' = Linebuf.err m
           | Err e =>
               Linebuf.waste m' = Linebuf.waste m ∧
               Linebuf.cursor m' = Linebuf.cursor m ∧
               Linebuf.err m' = Some (Errorf "failed to delete item" e)
           end)
  ∧ (∀ (m : Textinput.model) (it : wasteItem) (d : DB) (r : result unit),
       Textinput.inputmode m = normal →
       at_index (Textinput.waste m) (Textinput.cursor m) = Some it →
       ExecDelete (Textinput.db m) (id it) = (d, r) →
       ∃ m', Textinput.Update m (KeyMsg "d") = Done (m', CmdNil) ∧
             Textinput.db m' = d ∧ Textinput.inputmode m' = normal ∧
             match r with
             | Ok _ =>
                 Textinput.waste m' = delete (Z.to_nat (Textinput.cursor m)) (Textinput.waste m) ∧
                 Textinput.cursor m' = Z.min (Textinput.cursor m) (len (Textinput.waste m') - 1) ∧
                 (Textinput.waste m' = [] → Textinput.cursor m' = -1) ∧
                 (Textinput.waste m' ≠ [] → 0 ≤ Textinput.cursor m' < len (Textinput.waste m')) ∧
                 Textinput.err m' = Textinput.err m
             | Err e =>
                 Textinput.waste m' = Textinput.waste m ∧
                 Textinput.cursor m' = Textinput.cursor m ∧
                 Textinput.err m' = Some (Errorf "failed to delete item" e)
             end).
Proof.
  split; intros m it d r Hmode Hit Hex; pose proof (at_index_range _ _ _ Hit) as Hc;
    pose proof (len_delete _ _ Hc) as Hl.
  - rewrite (LinebufFacts.lb_delete_selected m it d r Hmode Hit Hex).
    destruct r as [[]|e]; (eexists; split; [reflexivity|]); cbn; [|done].
    split_and!; try done.
    + intros Hnil. apply len_nil_iff in Hnil. lia.
    + intros Hne. rewrite <- len_nil_iff in Hne.
      pose proof (len_nonneg (delete (Z.to_nat (Linebuf.cursor m)) (Linebuf.waste m))).
      lia.
  - rewrite (TextinputFacts.ti_delete_selected m it d r Hmode Hit Hex).
    destruct r as [[]|e]; (eexists; split; [reflexivity|]); cbn; [|done].
    split_and!; try done.
    + intros Hnil. apply len_nil_iff in Hnil. lia.
    + intros Hne. rewrite <- len_nil_iff in Hne.
      pose proof (len_nonneg (delete (Z.to_nat (Textinput.cursor m)) (Textinput.waste m))).
      lia.
Qed.

End Claims.

(** Two items, the cursor on the first, the store accepting the delete: one
    item is left, the cursor is 0 and selects the former second item. *)
Lemma delete_selected_item_witness :
  ∃ m', Linebuf.Update (Sample.lb_boot [Sample.oil; Sample.rags] []) (KeyMsg "d")
        = Done (m', CmdNil) ∧
        Linebuf.waste m' = [Sample.rags] ∧ Linebuf.cursor m' = 0.
Proof.
  destruct (proj1 (delete_selected_item (host := Mem.host))
              (Sample.lb_boot [Sample.oil; Sample.rags] []) Sample.oil
              (fst (Mem.delete (Mem.holding [Sample.oil; Sample.rags] []) 1)) (Ok tt)
              eq_refl eq_refl eq_refl)
    as (m' & Hstep & _ & _ & Hw & Hc & _).
  exists m'. split; [exact Hstep|]. split; [exact Hw|].
  rewrite Hc, Hw. reflexivity.
Defined.

Section CursorClaims.
Context {host : Host}.

(** C4. In list mode, from a cursor that is a valid index, every run of
    move-up and move-down keys, and every prefix of it, ends with the list as
    it was and the cursor still in [0, len list - 1].  One key moves the
    cursor to [max 0 (cursor - 1)] (up) or to [min (len list - 1) (cursor + 1)]
    (down): it is clamped at both ends and never wraps.  On an empty list a
    down key changes nothing.  In the textinput variant the arrow keys move
    the focus index and leave list and cursor as they were. *)
Theorem cursor_stays_in_range :
  (∀ (m : Linebuf.model) (keys pre : list string),
     Linebuf.inputmode m = normal → Forall move_key keys →
     0 ≤ Linebuf.cursor m < len (Linebuf.waste m) → pre `prefix_of` keys →
     ∃ m', Linebuf.run m pre = Done m' ∧ Linebuf.waste m' = Linebuf.waste m ∧
           0 ≤ Linebuf.cursor m' < len (Linebuf.waste m'))
  ∧ (∀ (m : Linebuf.model) (key : string),
       Linebuf.inputmode m = normal →
       0 ≤ Linebuf.cursor m < len (Linebuf.waste m) →
       (up_key key →
          Linebuf.Update m (KeyMsg key) =
            Done (Linebuf.set_cursor (Z.max 0 (Linebuf.cursor m - 1)) m, CmdNil))
       ∧ (down_key key →
            Linebuf.Update m (KeyMsg key) =
              Done (Linebuf.set_cursor
                      (Z.min (len (Linebuf.waste m) - 1) (Linebuf.cursor m + 1)) m,
                    CmdNil)))
  ∧ (∀ (m : Linebuf.model) (key : string),
       Linebuf.inputmode m = normal → Linebuf.waste m = [] →
       -1 ≤ Linebuf.cursor m → down_key key →
       Linebuf.Update m (KeyMsg key) = Done (m, CmdNil))
  ∧ (∀ (m : Textinput.model) (keys : list string),
       Textinput.inputmode m = normal → Forall focus_key keys →
       ∃ m', Textinput.run m keys = Done m' ∧
             Textinput.waste m' = Textinput.waste m ∧
             Textinput.cursor m' = Textinput.cursor m).
Proof.
  split_and!.
  - intros m keys pre Hmode Hkeys Hc [rest ->]. apply Forall_app in Hkeys as [Hpre _].
    destruct (LinebufFacts.lb_move_run m pre Hmode Hpre Hc) as (m' & ? & _ & ? & _ & ?).
    by exists m'.
  - intros m key Hmode Hc. split; intros Hk.
    + rewrite LinebufFacts.lb_up_step by done. case_bool_decide.
      * by rewrite Z.max_r by lia.
      * rewrite Z.max_l by lia. replace 0 with (Linebuf.cursor m) by lia.
        by rewrite LinebufFacts.lb_set_cursor_same.
    + rewrite LinebufFacts.lb_down_step by done. case_bool_decide.
      * by rewrite Z.min_r by lia.
      * rewrite Z.min_l by lia.
        replace (len (Linebuf.waste m) - 1) with (Linebuf.cursor m) by lia.
        by rewrite LinebufFacts.lb_set_cursor_same.
  - intros m key. apply LinebufFacts.lb_down_empty.
  - intros m keys Hmode Hkeys.
    destruct (TextinputFacts.ti_focus_run m keys Hmode Hkeys)
      as (m' & ? & _ & ? & ? & _).
    by exists m'.
Qed.

End CursorClaims.

(** Two items, the cursor on the first: down, down, down, up, up, up ends on
    the first item again, after a stop on the second. *)
Lemma cursor_stays_in_range_witness :
  ∃ m', Linebuf.run (Sample.lb_boot [Sample.oil; Sample.rags] [])
          ["down"; "j"; "down"; "up"; "k"; "up"] = Done m' ∧
        Linebuf.waste m' = [Sample.oil; Sample.rags] ∧
        0 ≤ Linebuf.cursor m' < 2.
Proof.
  destruct (proj1 (cursor_stays_in_range (host := Mem.host))
              (Sample.lb_boot [Sample.oil; Sample.rags] [])
              ["down"; "j"; "down"; "up"; "k"; "up"]
              ["down"; "j"; "down"; "up"; "k"; "up"])
    as (m' & Hrun & Hw & Hc).
  - reflexivity.
  - repeat constructor; unfold move_key, up_key, down_key; tauto.
  - unfold len. cbn. lia.
  - reflexivity.
  - exists m'. split; [exact Hrun|]. split; [exact Hw|].
    rewrite Hw in Hc. exact Hc.
Defined.

Section CancelClaims.
Context {host : Host}.


End CancelClaims.


Section SubmitClaims.
Context {host : Host}.

(** C10. Textinput variant: when the quantity parses and the store inserts
    the item, [submitWasteItem] writes the new item at index [len list - 1]
    of the list: on a list that is not empty it takes the place of the last
    item and the length stays; on the empty list the index is out of range
    and the submission, and so confirm on the last field, panics. *)
Theorem submit_writes_at_last_index (m : Textinput.model)
    (t0 t1 t2 t3 t4 : Textinput.textinput) (q : float) (d : DB) (res : sqlResult)
    (i : Z) :
  Textinput.inputs m = [t0; t1; t2; t3; t4] →
  ParseFloat (Textinput.Value t1) = Ok q →
  ExecInsert (Textinput.db m) (Textinput.Value t0) q (Textinput.Value t2)
    (Textinput.Value t3) (Textinput.Value t4) = (d, Ok res) →
  LastInsertId res = Ok i →
  (Textinput.waste m ≠ [] →
     ∃ m', Textinput.submitWasteItem m = Done (m', CmdNil) ∧
           Textinput.waste m' =
             <[Z.to_nat (len (Textinput.waste m) - 1) :=
                 Textinput.form_item q t0 t2 t3 t4 i]> (Textinput.waste m) ∧
           len (Textinput.waste m') = len (Textinput.waste m))
  ∧ (Textinput.waste m = [] →
       Textinput.submitWasteItem m = Panic ∧
       (Textinput.inputmode m ≠ normal → Textinput.focusIndex m = 4 →
          Textinput.Update m (KeyMsg "enter") = Panic)).
Proof.
  intros Hin Hq Hex Hid.
  pose proof (TextinputFacts.ti_submit_parsed m t0 t1 t2 t3 t4 q d (Ok res) Hin Hq Hex)
    as Hsub. cbv beta iota zeta in Hsub. rewrite Hid in Hsub.
  split.
  - intros Hne.
    destruct (at_index (Textinput.waste m) (len (Textinput.waste m) - 1)) as [old|] eqn:Ho.
    + eexists. split; [exact Hsub|]. cbn. split; [done|]. apply len_insert.
    + apply at_index_None in Ho. rewrite <- len_nil_iff in Hne.
      pose proof (len_nonneg (Textinput.waste m)). lia.
  - intros Hnil. rewrite Hnil in Hsub. change (at_index [] (len [] - 1)) with (@None wasteItem) in Hsub.
    split; [done|]. intros Hmode Hf.
    rewrite TextinputFacts.ti_enter_submit; [done|done|].
    rewrite Hin, Hf. unfold len. cbn. lia.
Qed.

End SubmitClaims.

(** The five fields filled in, the list empty, the store willing: confirm on
    the last field panics. *)
Lemma submit_writes_at_last_index_witness :
  Textinput.Update
    (Sample.ti_form [] [] ["Oil"; "3.2"; "Liquid"; "Bay1"; "Incinerate"] 4)
    (KeyMsg "enter") = Panic.
Proof.
  apply (submit_writes_at_last_index (host := Mem.host)
           (Sample.ti_form [] [] ["Oil"; "3.2"; "Liquid"; "Bay1"; "Incinerate"] 4)
           (Sample.field "Oil") (Sample.field "3.2") (Sample.field "Liquid")
           (Sample.field "Bay1") (Sample.field "Incinerate") 3.2%float
           (fst (Mem.insert (Mem.holding [] []) "Oil" 3.2%float "Liquid" "Bay1" "Incinerate"))
           1 1);
    (reflexivity || discriminate).
Defined.

(** C1 (the textinput variant misses it). The list holds one item, the five
    fields are filled in, the store inserts the new record under identifier
    3: after confirm on the last field the list still has one item, the new
    one, and the item it held is gone from it, while the store holds both. *)
Theorem textinput_submit_replaces_last_item :
  let new := {| id := 3; name := "Oil"; quantity := 3.2%float; wasteType := "Liquid";
                location := "Bay1"; method := "Incinerate" |} in
  ∃ m', Textinput.Update
          (Sample.ti_form [Sample.rags] [] ["Oil"; "3.2"; "Liquid"; "Bay1"; "Incinerate"] 4)
          (KeyMsg "enter") = Done (m', CmdNil) ∧
        Textinput.waste m' = [new] ∧
        Mem.rows (Textinput.db m') = [Sample.rags; new] ∧
        Textinput.inputmode m' = normal ∧ Textinput.err m' = None.
Proof.
  cbn zeta. run_result. split; [evaluated|]. by split_and!.
Qed.

(** C5 (the single-buffer variant misses it). From the empty list: add, the
    five fields typed and confirmed, the store refusing the insert.  The
    error is set, but the mode is [normal], the buffer is empty, and the item
    that was not stored stays in the list with identifier 0. *)
Theorem linebuf_failed_insert_leaves_form :
  ∃ m', Linebuf.run (Sample.lb_boot [] [true])
          ("a" :: Sample.typed "Oil" ++ "enter" :: Sample.typed "3.2" ++ "enter" ::
           Sample.typed "Liquid" ++ "enter" :: Sample.typed "Bay1" ++ "enter" ::
           Sample.typed "Incinerate" ++ ["enter"]) = Done m' ∧
        Linebuf.err m' = Some "failed to add item: disk I/O error" ∧
        Linebuf.inputmode m' = normal ∧ Linebuf.input m' = "" ∧
        Linebuf.waste m' = [{| id := 0; name := "Oil"; quantity := 3.2%float;
                               wasteType := "Liquid"; location := "Bay1";
                               method := "Incinerate" |}] ∧
        Mem.rows (Linebuf.db m') = [].
Proof.
  run_result. split; [evaluated|]. by split_and!.
Qed.

(** C8 (the single-buffer variant misses it). The list holds one item;
    delete it (the cursor becomes -1), then add and confirm a name: the list
    has one item again and the cursor is still -1, no index into it; cancel
    and delete then read the list at -1 and panic. *)
Theorem linebuf_cursor_left_out_of_range :
  (∃ m', Linebuf.run (Sample.lb_boot [Sample.oil] []) ["d"; "a"; "R"; "enter"] = Done m' ∧
         Linebuf.waste m' = [Linebuf.pending "R"] ∧ Linebuf.cursor m' = -1)
  ∧ Linebuf.run (Sample.lb_boot [Sample.oil] []) ["d"; "a"; "R"; "enter"; "esc"; "d"]
    = Panic.
Proof.
  split; [|evaluated]. run_result. split; [evaluated|]. by split_and!.
Qed.

Section QuantityClaims.
Context {host : Host}.

(** C2, amended. Single-buffer variant: confirm in the quantity mode parses
    the buffer; when it does not parse, the error slot holds the
    invalid-quantity message, the mode is still the quantity mode and the
    list is as it was; when it parses, the error is cleared, the quantity
    goes into the item under construction and the mode is the waste-type
    mode; the buffer is emptied either way.  Textinput variant: confirm on a
    field before the last one, the quantity field among them, moves the
    focus on by one and parses nothing; the quantity text is parsed by
    confirm on the last field, and when it does not parse the error slot
    holds the invalid-quantity message and mode, focus and fields stay. *)
Theorem quantity_checked_on_confirm :
  (∀ (m : Linebuf.model),
     Linebuf.inputmode m = addingQuantity →
     (∀ e, ParseFloat (Linebuf.input m) = Err e →
        Linebuf.Update m (KeyMsg "enter") =
          Done (Linebuf.set_input ""
                  (Linebuf.set_err (Some (Errorf "invalid quantity entered" e)) m),
                CmdNil))
     ∧ (∀ q it, ParseFloat (Linebuf.input m) = Ok q →
          at_index (Linebuf.waste m) (len (Linebuf.waste m) - 1) = Some it →
          Linebuf.Update m (KeyMsg "enter") =
            Done (Linebuf.set_input ""
                    (Linebuf.set_err None
                       (Linebuf.set_inputmode addingWasteType
                          (Linebuf.set_waste
                             (<[Linebuf.last_index m := Linebuf.with_quantity q it]>
                                (Linebuf.waste m)) m))),
                  CmdNil)))
  ∧ (∀ (m : Textinput.model) (t : Textinput.textinput),
       Textinput.inputmode m ≠ normal →
       Textinput.focusIndex m < len (Textinput.inputs m) - 1 →
       at_index (Textinput.inputs m) (Textinput.focusIndex m + 1) = Some t →
       Textinput.Update m (KeyMsg "enter") =
         Done (Textinput.set_inputs
                 (<[Z.to_nat (Textinput.focusIndex m + 1) := Textinput.Focus t]>
                    (Textinput.inputs m))
                 (Textinput.set_focusIndex (Textinput.focusIndex m + 1) m),
               CmdBlink))
  ∧ (∀ (m : Textinput.model) (t1 : Textinput.textinput) (e : string),
       Textinput.inputmode m ≠ normal →
       len (Textinput.inputs m) - 1 ≤ Textinput.focusIndex m →
       at_index (Textinput.inputs m) 1 = Some t1 →
       ParseFloat (Textinput.Value t1) = Err e →
       Textinput.Update m (KeyMsg "enter") =
         Done (Textinput.set_err (Some (Errorf "invalid quantity" e)) m, CmdNil)).
Proof.
  split_and!.
  - intros m Hmode. split.
    + intros e He. by rewrite LinebufFacts.lb_quantity_confirm, He.
    + intros q it Hq Hit. by rewrite LinebufFacts.lb_quantity_confirm, Hq, Hit.
  - intros m t Hmode Hf Ht. by rewrite TextinputFacts.ti_enter_advance, Ht.
  - intros m t1 e Hmode Hf Ht He.
    rewrite TextinputFacts.ti_enter_submit by done.
    by apply (TextinputFacts.ti_submit_parse_failure m t1 e).
Qed.

End QuantityClaims.

(** The name "Oil" confirmed, then "abc" typed as quantity and confirmed:
    the error is set and the mode is still the quantity mode. *)
Lemma quantity_checked_on_confirm_witness :
  ∃ m m', Linebuf.run (Sample.lb_boot [] []) ("a" :: Sample.typed "Oil" ++ "enter" ::
                                              Sample.typed "abc") = Done m ∧
          Linebuf.Update m (KeyMsg "enter") = Done (m', CmdNil) ∧
          Linebuf.inputmode m' = addingQuantity ∧
          Linebuf.err m' = Some (Errorf "invalid quantity entered" (Mem.syntax_error "abc")).
Proof.
  let v := eval vm_compute in
    (Linebuf.run (Sample.lb_boot [] [])
       ("a" :: Sample.typed "Oil" ++ "enter" :: Sample.typed "abc")) in
  lazymatch v with Done ?m => exists m end.
  eexists. split; [evaluated|]. split.
  - refine (proj1 (proj1 (quantity_checked_on_confirm (host := Mem.host)) _ _)
              (Mem.syntax_error "abc") _); reflexivity.
  - split; reflexivity.
Defined.

(** C2 fails in the textinput variant: the quantity field holds "abc", which
    does not parse, and confirm on it does not stay on the field with an
    error; it moves on to the third field and sets none. *)
Lemma quantity_confirm_counterexample :
  let m := Sample.ti_form [] [] ["Oil"; "abc"; ""; ""; ""] 1 in
  (∃ e, @ParseFloat Mem.host "abc" = Err e)
  ∧ ¬ (∃ m' c, Textinput.Update m (KeyMsg "enter") = Done (m', c) ∧
               Textinput.focusIndex m' = 1 ∧ Textinput.err m' ≠ None)
  ∧ (∃ m', Textinput.Update m (KeyMsg "enter") = Done (m', CmdBlink) ∧
           Textinput.focusIndex m' = 2 ∧ Textinput.err m' = None).
Proof.
  cbn zeta. split_and!.
  - by eexists.
  - intros (m' & c & Hstep & Hf & _).
    assert (match Textinput.Update
                    (Sample.ti_form [] [] ["Oil"; "abc"; ""; ""; ""] 1) (KeyMsg "enter")
            with
            | Done (m, _) => Textinput.focusIndex m
            | Panic => 0
            end = 2) as Hrun by evaluated.
    rewrite Hstep, Hf in Hrun. discriminate Hrun.
  - run_result. split; [evaluated|]. by split_and!.
Qed.

Section ListClaims.
Context {host : Host}.

(** C7, amended. After the start the list changes only as follows.  In both
    variants the [d] key in list mode removes the selected item, and only
    when the store delete succeeded.  In the textinput variant the one other
    change is confirm in the form when the quantity parsed and the store
    inserted the item: the last element is overwritten by it.  In the
    single-buffer variant the other changes are confirms in the form: confirm
    on the name appends an item that holds the name, before any store
    statement (the store is as it was), and confirm on a later field writes
    into the last element only.  Every other key leaves the list as it is. *)
Theorem list_changes_only_by :
  (∀ (m m' : Linebuf.model) (key : string) (c : Cmd),
     Linebuf.Update m (KeyMsg key) = Done (m', c) →
     Linebuf.waste m' ≠ Linebuf.waste m →
     (Linebuf.inputmode m = normal ∧ key = "d" ∧
        ∃ it d, at_index (Linebuf.waste m) (Linebuf.cursor m) = Some it ∧
                ExecDelete (Linebuf.db m) (id it) = (d, Ok tt) ∧
                Linebuf.waste m' = delete (Z.to_nat (Linebuf.cursor m)) (Linebuf.waste m))
     ∨ (Linebuf.inputmode m = addingName ∧ key = "enter" ∧
          Linebuf.db m' = Linebuf.db m ∧
          Linebuf.waste m' = Linebuf.waste m ++ [Linebuf.pending (Linebuf.input m)])
     ∨ (Linebuf.inputmode m ≠ normal ∧ Linebuf.inputmode m ≠ addingName ∧
          key = "enter" ∧
          ∃ it, Linebuf.waste m' = <[Linebuf.last_index m := it]> (Linebuf.waste m)))
  ∧ (∀ (m m' : Textinput.model) (key : string) (c : Cmd),
       Textinput.Update m (KeyMsg key) = Done (m', c) →
       Textinput.waste m' ≠ Textinput.waste m →
       (Textinput.inputmode m = normal ∧ key = "d" ∧
          ∃ it d, at_index (Textinput.waste m) (Textinput.cursor m) = Some it ∧
                  ExecDelete (Textinput.db m) (id it) = (d, Ok tt) ∧
                  Textinput.waste m' =
                    delete (Z.to_nat (Textinput.cursor m)) (Textinput.waste m))
       ∨ (Textinput.inputmode m ≠ normal ∧ key = "enter" ∧
            ∃ t0 t1 t2 t3 t4 q d res i,
              at_index (Textinput.inputs m) 0 = Some t0 ∧
              at_index (Textinput.inputs m) 1 = Some t1 ∧
              at_index (Textinput.inputs m) 2 = Some t2 ∧
              at_index (Textinput.inputs m) 3 = Some t3 ∧
              at_index (Textinput.inputs m) 4 = Some t4 ∧
              ParseFloat (Textinput.Value t1) = Ok q ∧
              ExecInsert (Textinput.db m) (Textinput.Value t0) q (Textinput.Value t2)
                (Textinput.Value t3) (Textinput.Value t4) = (d, Ok res) ∧
              LastInsertId res = Ok i ∧
              Textinput.waste m' =
                <[Z.to_nat (len (Textinput.waste m) - 1) :=
                    Textinput.form_item q t0 t2 t3 t4 i]> (Textinput.waste m))).
Proof.
  split.
  - apply LinebufFacts.lb_waste_changes.
  - apply TextinputFacts.ti_waste_changes.
Qed.

End ListClaims.

(** Two items and a willing store: the [d] key changes the list, and it did
    so by a delete statement that succeeded on the selected item. *)
Lemma list_changes_only_by_witness :
  ∃ it d, at_index [Sample.oil; Sample.rags] 0 = Some it ∧
          Mem.delete (Mem.holding [Sample.oil; Sample.rags] []) (id it) = (d, Ok tt).
Proof.
  destruct (proj1 (list_changes_only_by (host := Mem.host))
              (Sample.lb_boot [Sample.oil; Sample.rags] [])
              (Linebuf.set_waste [Sample.rags]
                 (Linebuf.set_db (host := Mem.host)
                    (fst (Mem.delete (Mem.holding [Sample.oil; Sample.rags] []) 1))
                    (Sample.lb_boot [Sample.oil; Sample.rags] [])))
              "d" CmdNil eq_refl ltac:(discriminate))
    as [(_ & _ & it & d & Hit & Hex & _) | [(_ & Hkey & _) | (_ & _ & Hkey & _)]].
  - exists it, d. split; [exact Hit | exact Hex].
  - discriminate Hkey.
  - discriminate Hkey.
Defined.

(** C7 fails in the single-buffer variant: from the empty list, add, "Oil",
    confirm.  The list holds an item, and the store has run no statement. *)
Lemma list_changes_counterexample :
  ∃ m', Linebuf.run (Sample.lb_boot [] []) ("a" :: Sample.typed "Oil" ++ ["enter"])
        = Done m' ∧
        Linebuf.waste m' = [Linebuf.pending "Oil"] ∧
        Linebuf.waste m' ≠ Linebuf.waste (Sample.lb_boot [] []) ∧
        Mem.journal (Linebuf.db m') = [] ∧ Mem.rows (Linebuf.db m') = [].
Proof.
  run_result. split; [evaluated|]. split_and!; try done.
Qed.

Section ErrorClaims.
Context {host : Host}.

(** C9, amended. The recoverable errors share the one slot [err], and each
    failure puts its own message there whatever the slot held: a failed
    delete, a quantity that does not parse, a failed insert.  The slot is not
    cleared by the next transition that succeeds.  In the single-buffer
    variant an error that is set goes away only on confirm of a quantity that
    parses; in the textinput variant no key takes it away. *)
Theorem error_slot_overwritten_not_cleared :
  (∀ (m : Linebuf.model) (it : wasteItem) (d : DB) (e : string),
     Linebuf.inputmode m = normal →
     at_index (Linebuf.waste m) (Linebuf.cursor m) = Some it →
     ExecDelete (Linebuf.db m) (id it) = (d, Err e) →
     ∃ m', Linebuf.Update m (KeyMsg "d") = Done (m', CmdNil) ∧
           Linebuf.err m' = Some (Errorf "failed to delete item" e))
  ∧ (∀ (m : Linebuf.model) (e : string),
       Linebuf.inputmode m = addingQuantity →
       ParseFloat (Linebuf.input m) = Err e →
       ∃ m', Linebuf.Update m (KeyMsg "enter") = Done (m', CmdNil) ∧
             Linebuf.err m' = Some (Errorf "invalid quantity entered" e))
  ∧ (∀ (m : Linebuf.model) (it : wasteItem) (d : DB) (r : result sqlResult)
       (e : string),
       Linebuf.inputmode m = addingMethod →
       at_index (Linebuf.waste m) (len (Linebuf.waste m) - 1) = Some it →
       ExecInsert (Linebuf.db m) (name it) (quantity it) (wasteType it) (location it)
         (Linebuf.input m) = (d, r) →
       r = Err e ∨ (∃ res, r = Ok res ∧ LastInsertId res = Err e) →
       ∃ m', Linebuf.Update m (KeyMsg "enter") = Done (m', CmdNil) ∧
             Linebuf.err m' = Some (Errorf "failed to add item" e))
  ∧ (∀ (m m' : Linebuf.model) (key : string) (c : Cmd),
       Linebuf.Update m (KeyMsg key) = Done (m', c) →
       Linebuf.err m ≠ None → Linebuf.err m' = None →
       Linebuf.inputmode m = addingQuantity ∧ key = "enter" ∧
       ∃ q, ParseFloat (Linebuf.input m) = Ok q)
  ∧ (∀ (m : Textinput.model) (it : wasteItem) (d : DB) (e : string),
       Textinput.inputmode m = normal →
       at_index (Textinput.waste m) (Textinput.cursor m) = Some it →
       ExecDelete (Textinput.db m) (id it) = (d, Err e) →
       ∃ m', Textinput.Update m (KeyMsg "d") = Done (m', CmdNil) ∧
             Textinput.err m' = Some (Errorf "failed to delete item" e))
  ∧ (∀ (m : Textinput.model) (t1 : Textinput.textinput) (e : string),
       Textinput.inputmode m ≠ normal →
       len (Textinput.inputs m) - 1 ≤ Textinput.focusIndex m →
       at_index (Textinput.inputs m) 1 = Some t1 →
       ParseFloat (Textinput.Value t1) = Err e →
       ∃ m', Textinput.Update m (KeyMsg "enter") = Done (m', CmdNil) ∧
             Textinput.err m' = Some (Errorf "invalid quantity" e))
  ∧ (∀ (m : Textinput.model) (t0 t1 t2 t3 t4 : Textinput.textinput) (q : float)
       (d : DB) (r : result sqlResult) (e : string),
       Textinput.inputmode m ≠ normal →
       len (Textinput.inputs m) - 1 ≤ Textinput.focusIndex m →
       Textinput.inputs m = [t0; t1; t2; t3; t4] →
       ParseFloat (Textinput.Value t1) = Ok q →
       ExecInsert (Textinput.db m) (Textinput.Value t0) q (Textinput.Value t2)
         (Textinput.Value t3) (Textinput.Value t4) = (d, r) →
       r = Err e ∨ (∃ res, r = Ok res ∧ LastInsertId res = Err e) →
       ∃ m', Textinput.Update m (KeyMsg "enter") = Done (m', CmdNil) ∧
             Textinput.err m' = Some (Errorf "failed to add item" e))
  ∧ (∀ (m m' : Textinput.model) (key : string) (c : Cmd),
       Textinput.Update m (KeyMsg key) = Done (m', c) →
       Textinput.err m ≠ None → Textinput.err m' ≠ None).
Proof.
  split_and!.
  - intros m it d e Hmode Hit Hex.
    rewrite (LinebufFacts.lb_delete_selected m it d (Err e) Hmode Hit Hex). by eexists.
  - intros m e Hmode He. rewrite LinebufFacts.lb_quantity_confirm, He by done.
    by eexists.
  - intros m it d r e Hmode Hit Hex Hr.
    rewrite (LinebufFacts.lb_method_confirm m it d r Hmode Hit Hex). cbv zeta.
    destruct Hr as [-> | (res & -> & Hid)]; [|rewrite Hid]; by eexists.
  - apply LinebufFacts.lb_err_cleared.
  - intros m it d e Hmode Hit Hex.
    rewrite (TextinputFacts.ti_delete_selected m it d (Err e) Hmode Hit Hex).
    by eexists.
  - intros m t1 e Hmode Hf Ht He. rewrite TextinputFacts.ti_enter_submit by done.
    rewrite (TextinputFacts.ti_submit_parse_failure m t1 e Ht He). by eexists.
  - intros m t0 t1 t2 t3 t4 q d r e Hmode Hf Hin Hq Hex Hr.
    rewrite TextinputFacts.ti_enter_submit by done.
    rewrite (TextinputFacts.ti_submit_parsed m t0 t1 t2 t3 t4 q d r Hin Hq Hex).
    cbv zeta. destruct Hr as [-> | (res & -> & Hid)]; [|rewrite Hid]; by eexists.
  - apply TextinputFacts.ti_err_kept.
Qed.

End ErrorClaims.

(** Two items and a store that refuses the first statement: the [d] key sets
    the delete-failure message. *)
Lemma error_slot_overwritten_not_cleared_witness :
  ∃ m', Linebuf.Update (Sample.lb_boot [Sample.oil; Sample.rags] [true]) (KeyMsg "d")
        = Done (m', CmdNil) ∧
        Linebuf.err m' = Some (Errorf "failed to delete item" "database is locked").
Proof.
  apply (proj1 (error_slot_overwritten_not_cleared (host := Mem.host))
           (Sample.lb_boot [Sample.oil; Sample.rags] [true]) Sample.oil
           (fst (Mem.delete (Mem.holding [Sample.oil; Sample.rags] [true]) 1)));
    reflexivity.
Defined.

(** C9 fails: the store refuses one delete and accepts the next.  The
    second [d] succeeds and changes the state (the item leaves the list), and
    the error of the first is still in the slot. *)
Lemma error_slot_counterexample :
  ∃ m1 m2,
    Linebuf.run (Sample.lb_boot [Sample.oil; Sample.rags] [true; false]) ["d"] = Done m1 ∧
    Linebuf.err m1 = Some "failed to delete item: database is locked" ∧
    Linebuf.Update m1 (KeyMsg "d") = Done (m2, CmdNil) ∧
    Linebuf.waste m1 = [Sample.oil; Sample.rags] ∧ Linebuf.waste m2 = [Sample.rags] ∧
    Linebuf.err m2 = Some "failed to delete item: database is locked".
Proof.
  let v := eval vm_compute in
    (Linebuf.run (Sample.lb_boot [Sample.oil; Sample.rags] [true; false]) ["d"]) in
  lazymatch v with Done ?m => exists m end.
  lazymatch goal with
  | |- ∃ m2, _ ∧ _ ∧ ?step = Done (m2, _) ∧ _ =>
      let v := eval vm_compute in step in
      lazymatch v with Done (?m, _) => exists m end
  end.
  split; [evaluated|]. split; [reflexivity|]. split; [evaluated|]. by split_and!.
Qed.

(** * Further properties of the programs *)

(** ** The single-buffer form *)

Ltac lb_norm :=
  unfold Linebuf.set_db, Linebuf.set_waste, Linebuf.set_cursor, Linebuf.set_input,
    Linebuf.set_inputmode, Linebuf.set_err, Linebuf.last_index, Linebuf.pending,
    Linebuf.with_quantity, Linebuf.with_wasteType, Linebuf.with_location,
    Linebuf.with_method;
  cbn [Linebuf.db Linebuf.waste Linebuf.cursor Linebuf.input Linebuf.inputmode
       Linebuf.err Linebuf.run id name quantity wasteType location method].

Section LinebufForm.
Context {host : Host}.

Lemma lb_text_prefix (m : Linebuf.model) (keys rest : list string) :
  Linebuf.inputmode m ≠ normal → Forall text_key keys →
  Linebuf.run m (keys ++ rest) =
    Linebuf.run (Linebuf.set_input (foldl String.append (Linebuf.input m) keys) m) rest.
Proof.
  intros Hmode Hkeys. revert m Hmode.
  induction Hkeys as [|key keys Hk _ IH]; intros m Hmode.
  - by destruct m.
  - cbn [app Linebuf.run]. rewrite (LinebufFacts.lb_text m key Hmode Hk).
    rewrite IH by done. by destruct m.
Qed.

(** A field typed into the empty buffer and confirmed. *)
Lemma lb_field_typed (m : Linebuf.model) (keys rest : list string) :
  Linebuf.inputmode m ≠ normal → Linebuf.input m = "" → Forall text_key keys →
  Linebuf.run m (keys ++ "enter" :: rest) =
    match Linebuf.Update (Linebuf.set_input (joined keys) m) (KeyMsg "enter") with
    | Panic => Panic
    | Done (m', CmdQuit) => Done m'
    | Done (m', _) => Linebuf.run m' rest
    end.
Proof.
  intros Hmode Hin Hkeys. rewrite lb_text_prefix by done. by rewrite Hin.
Qed.

(** The form filled in and accepted: from list mode, [a], then the five
    fields typed and confirmed, each as text keys, the quantity text parsing
    and the store inserting the record.  The run ends in list mode with the
    buffer empty, no error, the cursor where it was, and the list extended by
    exactly the item typed, under the identifier the store gave. *)
Theorem linebuf_form_appends_item (m : Linebuf.model)
    (nameK qtyK typeK locK methK : list string) (q : float) (d : DB)
    (res : sqlResult) (i : Z) :
  Linebuf.inputmode m = normal →
  Forall text_key nameK → Forall text_key qtyK → Forall text_key typeK →
  Forall text_key locK → Forall text_key methK →
  ParseFloat (joined qtyK) = Ok q →
  ExecInsert (Linebuf.db m) (joined nameK) q (joined typeK) (joined locK) (joined methK)
    = (d, Ok res) →
  LastInsertId res = Ok i →
  Linebuf.run m ("a" :: nameK ++ "enter" :: qtyK ++ "enter" :: typeK ++ "enter" ::
                 locK ++ "enter" :: methK ++ ["enter"]) =
    Done {| Linebuf.db := d;
            Linebuf.waste :=
              Linebuf.waste m ++
                [{| id := i; name := joined nameK; quantity := q;
                    wasteType := joined typeK; location := joined locK;
                    method := joined methK |}];
            Linebuf.cursor := Linebuf.cursor m; Linebuf.input := "";
            Linebuf.inputmode := normal; Linebuf.err := None |}.
Proof.
  intros Hmode Hn Hq Ht Hl Hm Hparse Hex Hid.
  assert (Hlast : ∀ (w : list wasteItem) (x y : wasteItem),
            <[Z.to_nat (len (w ++ [x]) - 1) := y]> (w ++ [x]) = w ++ [y]).
  { intros w x y. unfold len. rewrite length_app. cbn.
    replace (Z.to_nat _) with (length w + 0)%nat by lia.
    by rewrite insert_app_r. }
  destruct m as [d0 w c inp mode e]. cbn in Hmode, Hex. subst mode.
  cbn [Linebuf.run]. rewrite LinebufFacts.lb_add by done. lb_norm.
  rewrite lb_field_typed by done. lb_norm.
  rewrite LinebufFacts.lb_name_confirm by done. lb_norm.
  rewrite lb_field_typed by done. lb_norm.
  rewrite LinebufFacts.lb_quantity_confirm by done. lb_norm.
  rewrite Hparse, at_index_last, Hlast.
  rewrite lb_field_typed by done. lb_norm.
  rewrite LinebufFacts.lb_type_confirm by done. lb_norm.
  rewrite at_index_last, Hlast.
  rewrite lb_field_typed by done. lb_norm.
  rewrite LinebufFacts.lb_location_confirm by done. lb_norm.
  rewrite at_index_last, Hlast.
  rewrite lb_field_typed by done. lb_norm.
  erewrite LinebufFacts.lb_method_confirm; [|done|apply at_index_last|exact Hex].
  cbv beta iota zeta. rewrite Hid. lb_norm. by rewrite Hlast.
Qed.

End LinebufForm.

(** From the empty list: Oil, 3.2, Liquid, Bay1, Incinerate, on a willing
    store.  The list holds exactly that item, under identifier 1. *)
Lemma linebuf_form_appends_item_witness :
  ∃ d, Linebuf.run (Sample.lb_boot [] [])
         ("a" :: Sample.typed "Oil" ++ "enter" :: Sample.typed "3.2" ++ "enter" ::
          Sample.typed "Liquid" ++ "enter" :: Sample.typed "Bay1" ++ "enter" ::
          Sample.typed "Incinerate" ++ ["enter"]) =
       Done (@Linebuf.Build_model Mem.host d [Sample.oil] 0 "" normal None).
Proof.
  eexists.
  apply (linebuf_form_appends_item (host := Mem.host) (Sample.lb_boot [] [])
           (Sample.typed "Oil") (Sample.typed "3.2") (Sample.typed "Liquid")
           (Sample.typed "Bay1") (Sample.typed "Incinerate") 3.2%float _ 1 1);
    try reflexivity; repeat constructor; discriminate.
Defined.

(** ** What the single-buffer program keeps, and when it panics *)

Section LinebufShape.
Context {host : Host}.

Lemma lb_list_key_result (m m' : Linebuf.model) (key : string) (c : Cmd) :
  Linebuf.inputmode m = normal → key ≠ "d" →
  Linebuf.Update m (KeyMsg key) = Done (m', c) →
  m' = m
  ∨ (0 < Linebuf.cursor m ∧ m' = Linebuf.set_cursor (Linebuf.cursor m - 1) m)
  ∨ (Linebuf.cursor m < len (Linebuf.waste m) - 1 ∧
     m' = Linebuf.set_cursor (Linebuf.cursor m + 1) m)
  ∨ m' = Linebuf.set_input "" (Linebuf.set_inputmode addingName m).
Proof.
  intros Hmode Hkey Hstep. unfold Linebuf.Update in Hstep. rewrite Hmode in Hstep.
  unfold Linebuf.updateNormal in Hstep.
  key_cases key in Hstep; simplify_eq; repeat case_bool_decide; eauto.
Qed.

Lemma lb_list_key_total (m : Linebuf.model) (key : string) :
  Linebuf.inputmode m = normal → key ≠ "d" →
  Linebuf.Update m (KeyMsg key) ≠ Panic.
Proof.
  intros Hmode Hkey. unfold Linebuf.Update. rewrite Hmode.
  unfold Linebuf.updateNormal. by key_cases key.
Qed.

(** A state with the same cursor and as many items is in shape, when its
    mode is the old one or one that asks nothing of the list. *)
Lemma lb_wf_same_len (m m' : Linebuf.model) :
  Shape.lb_wf m → Linebuf.cursor m' = Linebuf.cursor m →
  len (Linebuf.waste m') = len (Linebuf.waste m) →
  (Linebuf.inputmode m' = Linebuf.inputmode m ∨ Linebuf.inputmode m' = normal ∨
   Linebuf.inputmode m' = addingName ∨ Linebuf.waste m ≠ []) →
  Shape.lb_wf m'.
Proof.
  intros [Hc Hform] Hc' Hl Hmode. split; [by rewrite Hc', Hl|].
  intros Hn Ha Hnil. apply len_nil_iff in Hnil. rewrite Hl in Hnil.
  apply len_nil_iff in Hnil.
  destruct Hmode as [Heq | [? | [? | ?]]]; try done.
  rewrite Heq in Hn, Ha. by apply Hform.
Qed.

Lemma at_index_last_Some {A : Type} (l : list A) (x : A) :
  at_index l (len l - 1) = Some x → l ≠ [].
Proof. intros H%at_index_range ->. unfold len in H. cbn in H. lia. Qed.

Lemma at_index_last_None {A : Type} (l : list A) :
  at_index l (len l - 1) = None → l = [].
Proof.
  intros H%at_index_None. apply len_nil_iff. pose proof (len_nonneg l). lia.
Qed.

(** The started program is in shape. *)
Lemma lb_wf_initial (d : DB) (m : Linebuf.model) :
  Linebuf.initialModel d = Ok m → Shape.lb_wf m.
Proof.
  unfold Linebuf.initialModel. destruct (Query d) as [items|e]; intros; simplify_eq.
  split; cbn; [|done]. pose proof (len_nonneg items). lia.
Qed.

(** Every message keeps the shape. *)
Lemma lb_wf_step (m m' : Linebuf.model) (msg : Msg) (c : Cmd) :
  Shape.lb_wf m → Linebuf.Update m msg = Done (m', c) → Shape.lb_wf m'.
Proof.
  intros Hwf Hstep. destruct msg as [key|]; [|by cbn in Hstep; simplify_eq].
  destruct (decide (Linebuf.inputmode m = normal)) as [Hmode | Hmode].
  - destruct (decide (key = "d")) as [-> | Hkey].
    + destruct (at_index (Linebuf.waste m) (Linebuf.cursor m)) as [it|] eqn:Hit.
      2:{ rewrite LinebufFacts.lb_delete_unselected in Hstep by done.
          case_bool_decide; by simplify_eq. }
      destruct (ExecDelete (Linebuf.db m) (id it)) as [d r] eqn:Hex.
      rewrite (LinebufFacts.lb_delete_selected m it d r Hmode Hit Hex) in Hstep.
      pose proof (at_index_range _ _ _ Hit) as Hr.
      pose proof (len_delete _ _ Hr) as Hl.
      destruct r as [[]|e]; cbn in Hstep; simplify_eq.
      * split; cbn; [lia|]. by rewrite Hmode.
      * apply (lb_wf_same_len m); cbn; auto.
    + destruct Hwf as [Hc Hform].
      destruct (lb_list_key_result m m' key c Hmode Hkey Hstep)
        as [-> | [[? ->] | [[? ->] | ->]]]; split; cbn; try done; try lia;
        by rewrite ?Hmode.
  - destruct (decide (key = "enter")) as [-> | Hkey].
    2:{ destruct (decide (key = "esc")) as [-> | Hesc].
        - rewrite LinebufFacts.lb_esc in Hstep by done. simplify_eq.
          apply (lb_wf_same_len m); cbn; auto.
        - rewrite LinebufFacts.lb_text in Hstep by done. simplify_eq.
          apply (lb_wf_same_len m); cbn; auto. }
    destruct (Linebuf.inputmode m) eqn:Hm; [done|..].
    + rewrite LinebufFacts.lb_name_confirm in Hstep by done. simplify_eq.
      destruct Hwf as [Hc _]. split; cbn.
      * unfold len in *. rewrite length_app. cbn. lia.
      * intros _ _ Hnil. by apply app_nil in Hnil as [_ ?].
    + rewrite LinebufFacts.lb_quantity_confirm in Hstep by done.
      destruct (ParseFloat _).
      2:{ simplify_eq. apply (lb_wf_same_len m); cbn; auto. }
      destruct (at_index _ _) as [it|] eqn:Hit; simplify_eq.
      apply at_index_last_Some in Hit.
      apply (lb_wf_same_len m); cbn; rewrite ?len_insert; auto.
    + rewrite LinebufFacts.lb_type_confirm in Hstep by done.
      destruct (at_index _ _) as [it|] eqn:Hit; simplify_eq.
      apply at_index_last_Some in Hit.
      apply (lb_wf_same_len m); cbn; rewrite ?len_insert; auto.
    + rewrite LinebufFacts.lb_location_confirm in Hstep by done.
      destruct (at_index _ _) as [it|] eqn:Hit; simplify_eq.
      apply at_index_last_Some in Hit.
      apply (lb_wf_same_len m); cbn; rewrite ?len_insert; auto.
    + destruct (at_index (Linebuf.waste m) (len (Linebuf.waste m) - 1)) as [it|] eqn:Hit.
      2:{ by rewrite LinebufFacts.lb_method_confirm_empty in Hstep. }
      destruct (ExecInsert (Linebuf.db m) (name it) (quantity it) (wasteType it)
                  (location it) (Linebuf.input m)) as [d r] eqn:Hex.
      rewrite (LinebufFacts.lb_method_confirm m it d r Hm Hit Hex) in Hstep.
      destruct r as [res|e]; [destruct (LastInsertId res)|]; cbn in Hstep;
        simplify_eq; apply (lb_wf_same_len m); cbn; rewrite ?len_insert; auto.
Qed.

End LinebufShape.

Section LinebufSafety.
Context {host : Host}.

Lemma lb_wf_run (m m' : Linebuf.model) (keys : list string) :
  Shape.lb_wf m → Linebuf.run m keys = Done m' → Shape.lb_wf m'.
Proof.
  revert m. induction keys as [|key keys IH]; intros m Hwf Hrun;
    cbn [Linebuf.run] in Hrun.
  - by simplify_eq.
  - destruct (Linebuf.Update m (KeyMsg key)) as [[m1 c]|] eqn:Hstep; [|by simplify_eq].
    pose proof (lb_wf_step m m1 (KeyMsg key) c Hwf Hstep) as Hwf1.
    destruct c; simplify_eq; eauto.
Qed.

(** Single-buffer variant: in every state a run of keys reaches from the
    start, the cursor is at least -1 and never past the last index of the
    list (0 on the empty list), and in the form past the name field the list
    is not empty: the item under construction is its last element. *)
Theorem linebuf_reachable_shape (d : DB) (m0 m : Linebuf.model) (keys : list string) :
  Linebuf.initialModel d = Ok m0 → Linebuf.run m0 keys = Done m →
  -1 ≤ Linebuf.cursor m ≤ Z.max 0 (len (Linebuf.waste m) - 1) ∧
  (Linebuf.inputmode m ≠ normal → Linebuf.inputmode m ≠ addingName →
   Linebuf.waste m ≠ []).
Proof.
  intros Hinit Hrun. apply (lb_wf_run m0 m keys); [|done].
  by apply (lb_wf_initial d).
Qed.

(** Single-buffer variant: from a state in shape a message panics in one
    case only, the [d] key in list mode on a list that is not empty while the
    cursor is -1 (the value a delete leaves on the list it emptied). *)
Theorem linebuf_panics_only_without_selection (m : Linebuf.model) (msg : Msg) :
  Shape.lb_wf m →
  Linebuf.Update m msg = Panic ↔
    msg = KeyMsg "d" ∧ Linebuf.inputmode m = normal ∧ Linebuf.waste m ≠ [] ∧
    Linebuf.cursor m = -1.
Proof.
  intros [Hc Hform]. split.
  - intros Hstep. destruct msg as [key|]; [|done].
    destruct (decide (Linebuf.inputmode m = normal)) as [Hmode | Hmode].
    + destruct (decide (key = "d")) as [-> | Hkey].
      2:{ by destruct (lb_list_key_total m key Hmode Hkey). }
      destruct (at_index (Linebuf.waste m) (Linebuf.cursor m)) as [it|] eqn:Hit.
      { destruct (ExecDelete (Linebuf.db m) (id it)) as [d r] eqn:Hex.
        rewrite (LinebufFacts.lb_delete_selected m it d r Hmode Hit Hex) in Hstep.
        by destruct r as [[]|e]. }
      rewrite LinebufFacts.lb_delete_unselected in Hstep by done.
      case_bool_decide; [|done]. apply at_index_None in Hit.
      split_and!; try done; [|lia]. intros Hnil. apply len_nil_iff in Hnil. lia.
    + exfalso. destruct (decide (key = "enter")) as [-> | Hkey].
      2:{ destruct (LinebufFacts.lb_form_other_key m key Hmode Hkey) as (m1 & Hm1 & _).
          by rewrite Hm1 in Hstep. }
      destruct (Linebuf.inputmode m) eqn:Hm; [done|..].
      * by rewrite LinebufFacts.lb_name_confirm in Hstep.
      * rewrite LinebufFacts.lb_quantity_confirm in Hstep by done.
        destruct (ParseFloat _); [|done].
        destruct (at_index _ _) eqn:Hit; [done|].
        apply at_index_last_None in Hit. by apply Hform.
      * rewrite LinebufFacts.lb_type_confirm in Hstep by done.
        destruct (at_index _ _) eqn:Hit; [done|].
        apply at_index_last_None in Hit. by apply Hform.
      * rewrite LinebufFacts.lb_location_confirm in Hstep by done.
        destruct (at_index _ _) eqn:Hit; [done|].
        apply at_index_last_None in Hit. by apply Hform.
      * destruct (at_index (Linebuf.waste m) (len (Linebuf.waste m) - 1))
          as [it|] eqn:Hit.
        2:{ apply at_index_last_None in Hit. by apply Hform. }
        destruct (ExecInsert (Linebuf.db m) (name it) (quantity it) (wasteType it)
                    (location it) (Linebuf.input m)) as [d r] eqn:Hex.
        rewrite (LinebufFacts.lb_method_confirm m it d r Hm Hit Hex) in Hstep.
        by destruct r as [res|e]; [destruct (LastInsertId res)|].
  - intros (-> & Hmode & Hne & Hcur).
    rewrite LinebufFacts.lb_delete_unselected; [|done|].
    + rewrite bool_decide_true; [done|].
      rewrite <- len_nil_iff in Hne. pose proof (len_nonneg (Linebuf.waste m)). lia.
    + apply at_index_None. lia.
Qed.

End LinebufSafety.

(** A store with one item; delete, add, a name, confirm: the state is in
    shape, with the cursor at -1 under a list of one item. *)
Lemma linebuf_reachable_shape_witness :
  ∃ m, Linebuf.run (Sample.lb_boot [Sample.oil] []) ["d"; "a"; "R"; "enter"] = Done m ∧
       -1 ≤ Linebuf.cursor m ≤ Z.max 0 (len (Linebuf.waste m) - 1).
Proof.
  run_result. split; [evaluated|].
  eapply (linebuf_reachable_shape (host := Mem.host) (Mem.holding [Sample.oil] [])
            (Sample.lb_boot [Sample.oil] []) _ ["d"; "a"; "R"; "enter"]).
  - reflexivity.
  - evaluated.
Defined.

(** That state is in shape, so the next [d] after a cancel panics and no
    other key does: here [up] does not. *)
Lemma linebuf_panics_only_without_selection_witness :
  Linebuf.Update
    (@Linebuf.Build_model Mem.host (Mem.holding [] []) [Sample.oil] (-1) "" normal None)
    (KeyMsg "up") ≠ Panic.
Proof.
  intros Hp.
  apply (linebuf_panics_only_without_selection (host := Mem.host)) in Hp as (Hk & _).
  - discriminate Hk.
  - split; cbn; [unfold len; cbn; lia | done].
Defined.

(** ** What the textinput program keeps *)

Section TextinputShape.
Context {host : Host}.

Lemma ti_length_imap (f : nat → bool) (l : list Textinput.textinput) :
  length (imap (λ i t, if f i then Textinput.Focus t else Textinput.Blur t) l)
  = length l.
Proof. apply length_imap. Qed.

(** No message changes the number of inputs. *)
Lemma ti_length_step (m m' : Textinput.model) (msg : Msg) (c : Cmd) :
  Textinput.Update m msg = Done (m', c) →
  length (Textinput.inputs m') = length (Textinput.inputs m).
Proof.
  intros Hstep. destruct msg as [key|]; [|by cbn in Hstep; simplify_eq].
  destruct (decide (Textinput.inputmode m = normal)) as [Hmode | Hmode].
  - destruct (decide (key = "d")) as [-> | Hkey].
    + destruct (at_index (Textinput.waste m) (Textinput.cursor m)) as [it|] eqn:Hit.
      2:{ rewrite TextinputFacts.ti_delete_unselected in Hstep by done.
          case_bool_decide; by simplify_eq. }
      destruct (ExecDelete (Textinput.db m) (id it)) as [d r] eqn:Hex.
      rewrite (TextinputFacts.ti_delete_selected m it d r Hmode Hit Hex) in Hstep.
      destruct r as [[]|e]; cbn in Hstep; by simplify_eq.
    + unfold Textinput.Update in Hstep. rewrite Hmode in Hstep.
      unfold Textinput.updateNormal, modify_at in Hstep.
      key_cases key in Hstep; simplify_eq; cbn; rewrite ?ti_length_imap; try done;
        repeat case_bool_decide; cbn; rewrite ?ti_length_imap; try done.
      cbn [Textinput.inputs Textinput.set_focusIndex Textinput.set_inputmode] in Hstep.
      destruct (at_index (Textinput.inputs m) 0); cbn in Hstep; simplify_eq.
      cbn. by rewrite length_insert.
  - destruct (decide (key = "enter")) as [-> | Hkey].
    2:{ destruct (TextinputFacts.ti_form_key_keeps m key Hmode Hkey)
          as (m1 & Hm1 & _ & _ & _ & _ & Hin).
        rewrite Hm1 in Hstep. simplify_eq. by rewrite Hin. }
    destruct (decide (Textinput.focusIndex m < len (Textinput.inputs m) - 1)) as [Hf | Hf].
    { rewrite TextinputFacts.ti_enter_advance in Hstep by done.
      destruct (at_index _ _); simplify_eq. cbn. by rewrite length_insert. }
    rewrite TextinputFacts.ti_enter_submit in Hstep by (done || lia).
    destruct (TextinputFacts.ti_submit_cases m m' c Hstep)
      as [(_ & _ & _ & Hin & _) | Hok]; [by rewrite Hin|].
    destruct Hok as (t0 & t1 & t2 & t3 & t4 & q & d & res & i & Hok).
    assert (Textinput.inputs m' = Textinput.SetValue "" <$> Textinput.inputs m) as ->
      by intuition.
    by rewrite length_fmap.
Qed.

(** The list never grows: a message leaves it as long as it was, or one
    item shorter. *)
Lemma ti_list_never_grows_step (m m' : Textinput.model) (msg : Msg) (c : Cmd) :
  Textinput.Update m msg = Done (m', c) →
  len (Textinput.waste m') ≤ len (Textinput.waste m).
Proof.
  intros Hstep. destruct msg as [key|]; [|by cbn in Hstep; simplify_eq].
  destruct (decide (len (Textinput.waste m') = len (Textinput.waste m)))
    as [-> | Hlen]; [done|].
  assert (Textinput.waste m' ≠ Textinput.waste m) as Hne by congruence.
  destruct (TextinputFacts.ti_waste_changes m m' key c Hstep Hne)
    as [(_ & _ & it & d & Hit & _ & ->) | (_ & _ & Hins)].
  - apply at_index_range in Hit. rewrite len_delete by done. lia.
  - destruct Hins as (t0 & t1 & t2 & t3 & t4 & q & d & res & i & Hins).
    assert (Textinput.waste m' =
              <[Z.to_nat (len (Textinput.waste m) - 1) :=
                  Textinput.form_item q t0 t2 t3 t4 i]> (Textinput.waste m)) as ->
      by intuition.
    by rewrite len_insert.
Qed.

(** The started program is in shape. *)
Lemma ti_wf_initial (d : DB) (m : Textinput.model) :
  Textinput.initialModel d = Ok m → Shape.ti_wf m.
Proof.
  intros Hinit. pose proof (TextinputFacts.ti_blank_initial d m Hinit) as Hb.
  unfold Textinput.initialModel in Hinit.
  destruct (Query d) as [items|e]; simplify_eq.
  unfold Shape.ti_wf. cbn. split_and!; try done.
  intros Hne. assert (len items ≠ 0) by (intros Hz; by apply len_nil_iff in Hz).
  pose proof (len_nonneg items). lia.
Qed.

(** Submitting never touches the cursor style. *)
Lemma ti_submit_cursorMode (m m' : Textinput.model) (c : Cmd) :
  Textinput.submitWasteItem m = Done (m', c) →
  Textinput.cursorMode m' = Textinput.cursorMode m.
Proof.
  unfold Textinput.submitWasteItem, get_at. intros Hsub.
  destruct (at_index (Textinput.inputs m) 1) as [t1|]; [|done].
  cbn [mbind outcome_bind] in Hsub.
  destruct (ParseFloat (Textinput.Value t1)) as [q|e]; [|by simplify_eq].
  destruct (at_index (Textinput.inputs m) 0) as [t0|]; [|done].
  destruct (at_index (Textinput.inputs m) 2) as [t2|]; [|done].
  destruct (at_index (Textinput.inputs m) 3) as [t3|]; [|done].
  destruct (at_index (Textinput.inputs m) 4) as [t4|]; [|done].
  cbn [mbind outcome_bind] in Hsub. unfold Textinput.addWasteItem in Hsub.
  cbn [name quantity wasteType location method] in Hsub.
  destruct (ExecInsert _ _ _ _ _ _) as [d r].
  destruct r as [res|e]; [|by cbn in Hsub; simplify_eq].
  destruct (LastInsertId res) as [i|e]; [|by cbn in Hsub; simplify_eq].
  unfold store_at in Hsub.
  destruct (at_index (Textinput.waste m) _) as [old|]; [|done].
  cbn in Hsub. by simplify_eq.
Qed.

(** Every message keeps the shape. *)
Lemma ti_wf_step (m m' : Textinput.model) (msg : Msg) (c : Cmd) :
  Shape.ti_wf m → Textinput.Update m msg = Done (m', c) → Shape.ti_wf m'.
Proof.
  intros (Hlen & Hb & Hf & Hff & Hcm & Hce & Hcn) Hstep.
  pose proof (ti_length_step m m' msg c Hstep) as Hlen'.
  pose proof (TextinputFacts.ti_blank_step m m' msg c Hb Hstep) as Hb'.
  unfold Shape.ti_wf. split; [congruence|]. split; [done|].
  assert (Hl5 : len (Textinput.inputs m) = 5) by (unfold len; lia).
  destruct msg as [key|]; [|by cbn in Hstep; simplify_eq].
  destruct (decide (Textinput.inputmode m = normal)) as [Hmode | Hmode].
  - destruct (decide (key = "d")) as [-> | Hkey].
    + destruct (at_index (Textinput.waste m) (Textinput.cursor m)) as [it|] eqn:Hit.
      2:{ rewrite TextinputFacts.ti_delete_unselected in Hstep by done.
          case_bool_decide; by simplify_eq. }
      destruct (ExecDelete (Textinput.db m) (id it)) as [d r] eqn:Hex.
      rewrite (TextinputFacts.ti_delete_selected m it d r Hmode Hit Hex) in Hstep.
      pose proof (at_index_range _ _ _ Hit) as Hr.
      pose proof (len_delete _ _ Hr) as Hl.
      pose proof (len_nonneg (Textinput.waste m)).
      destruct r as [[]|e]; cbn in Hstep; simplify_eq; cbn; split_and!; try done;
        try lia; rewrite <- ?len_nil_iff; lia.
    + destruct (TextinputFacts.ti_list_key_keeps m m' key c Hmode Hkey Hstep)
        as (Hw & _ & _ & Hc).
      rewrite Hw, Hc.
      unfold Textinput.Update in Hstep. rewrite Hmode in Hstep.
      unfold Textinput.updateNormal, modify_at, Textinput.CursorHide,
        Textinput.CursorBlink in *.
      key_cases key in Hstep; simplify_eq; cbn; rewrite ?Hl5;
        repeat case_bool_decide; cbn; split_and!; try done; try lia.
      all: cbn [Textinput.inputs Textinput.set_focusIndex Textinput.set_inputmode] in Hstep;
        destruct (at_index (Textinput.inputs m) 0); cbn in Hstep; simplify_eq; cbn;
        done || lia.
  - destruct (decide (key = "enter")) as [-> | Hkey].
    2:{ destruct (decide (key = "esc")) as [-> | Hesc].
        - rewrite TextinputFacts.ti_esc in Hstep by done. simplify_eq. cbn.
          split_and!; done || lia.
        - rewrite TextinputFacts.ti_text in Hstep by done. by simplify_eq. }
    destruct (decide (Textinput.focusIndex m < len (Textinput.inputs m) - 1)) as [Hlt | Hlt].
    { rewrite TextinputFacts.ti_enter_advance in Hstep by done.
      destruct (at_index _ _); simplify_eq. cbn. split_and!; try done; lia. }
    rewrite TextinputFacts.ti_enter_submit in Hstep by (done || lia).
    destruct (TextinputFacts.ti_submit_cases m m' c Hstep)
      as [(Hw & Hm & Hfi & _ & Hc & _) | Hok].
    { rewrite Hw, Hm, Hfi, Hc.
      by rewrite (ti_submit_cursorMode m m' c Hstep). }
    destruct Hok as (t0 & t1 & t2 & t3 & t4 & q & d & res & i & _ & _ & _ & _ & _ & _ &
                     _ & _ & Hpos & Hw & _ & _ & Hc & Hm & Hfi & _).
    rewrite (ti_submit_cursorMode m m' c Hstep), Hw, Hc, Hfi.
    split_and!; try done; try lia.
    + intros Hnil. apply len_nil_iff in Hnil. rewrite len_insert in Hnil. lia.
    + intros _. rewrite len_insert. apply Hcn. intros Hnil.
      apply len_nil_iff in Hnil. lia.
Qed.

Lemma ti_wf_run (m m' : Textinput.model) (keys : list string) :
  Shape.ti_wf m → Textinput.run m keys = Done m' → Shape.ti_wf m'.
Proof.
  revert m. induction keys as [|key keys IH]; intros m Hwf Hrun;
    cbn [Textinput.run] in Hrun.
  - by simplify_eq.
  - destruct (Textinput.Update m (KeyMsg key)) as [[m1 c]|] eqn:Hstep; [|by simplify_eq].
    pose proof (ti_wf_step m m1 (KeyMsg key) c Hwf Hstep) as Hwf1.
    destruct c; simplify_eq; eauto.
Qed.

End TextinputShape.

Section TextinputSafety.
Context {host : Host}.

(** The five reads of a form of five inputs. *)
Lemma ti_five_inputs (m : Textinput.model) :
  length (Textinput.inputs m) = 5%nat →
  ∃ t0 t1 t2 t3 t4, Textinput.inputs m = [t0; t1; t2; t3; t4].
Proof.
  intros Hlen.
  destruct (Textinput.inputs m) as [|t0 [|t1 [|t2 [|t3 [|t4 [|]]]]]]; try done.
  by exists t0, t1, t2, t3, t4.
Qed.

(** Submitting the blank form: the empty text goes to the parser, and the
    blank item to the store. *)
Lemma ti_blank_submit (m : Textinput.model) :
  length (Textinput.inputs m) = 5%nat → Textinput.blank m →
  Textinput.submitWasteItem m =
    match ParseFloat "" with
    | Err e => Done (Textinput.set_err (Some (Errorf "invalid quantity" e)) m, CmdNil)
    | Ok q =>
        '(d, w, r) ← Textinput.addWasteItem m
                       {| id := 0; name := ""; quantity := q; wasteType := "";
                          location := ""; method := "" |};
        let m := Textinput.set_waste w (Textinput.set_db d m) in
        match r with
        | Err e =>
            Done (Textinput.set_err (Some (Errorf "failed to add item" e)) m, CmdNil)
        | Ok _ =>
            let m := Textinput.set_inputmode normal m in
            let m := Textinput.set_inputs
                       (map (Textinput.SetValue "") (Textinput.inputs m)) m in
            Done (Textinput.set_focusIndex 0 m, CmdNil)
        end
    end.
Proof.
  intros Hlen Hb. destruct (ti_five_inputs m Hlen) as (t0 & t1 & t2 & t3 & t4 & Hin).
  unfold Textinput.blank in Hb. rewrite Hin in Hb. decompose_Forall_hyps.
  unfold Textinput.submitWasteItem, get_at.
  rewrite (proj2 (at_index_Some (Textinput.inputs m) 1 t1))
    by (rewrite Hin; split; [lia|done]).
  rewrite (proj2 (at_index_Some (Textinput.inputs m) 0 t0))
    by (rewrite Hin; split; [lia|done]).
  rewrite (proj2 (at_index_Some (Textinput.inputs m) 2 t2))
    by (rewrite Hin; split; [lia|done]).
  rewrite (proj2 (at_index_Some (Textinput.inputs m) 3 t3))
    by (rewrite Hin; split; [lia|done]).
  rewrite (proj2 (at_index_Some (Textinput.inputs m) 4 t4))
    by (rewrite Hin; split; [lia|done]).
  cbn [mbind outcome_bind].
  repeat match goal with H : Textinput.Value _ = "" |- _ => rewrite H; clear H end.
  done.
Qed.

Lemma ti_head_initial (d : DB) (m : Textinput.model) :
  Textinput.initialModel d = Ok m → Shape.ti_head m.
Proof.
  unfold Textinput.initialModel. intros Hinit.
  destruct (Query d) as [items|e]; simplify_eq.
  unfold Shape.ti_head. cbn. split_and!; auto.
Qed.

(** Every message keeps the selection on the head of the list. *)
Lemma ti_head_step (m m' : Textinput.model) (msg : Msg) (c : Cmd) :
  Shape.ti_head m → Textinput.Update m msg = Done (m', c) → Shape.ti_head m'.
Proof.
  intros (Hm & Hne & Hnil) Hstep.
  destruct msg as [key|]; [|by cbn in Hstep; simplify_eq].
  unfold Shape.ti_head.
  destruct (decide (Textinput.inputmode m = normal)) as [Hmode | Hmode].
  - destruct (decide (key = "d")) as [-> | Hkey].
    + destruct (at_index (Textinput.waste m) (Textinput.cursor m)) as [it|] eqn:Hit.
      2:{ rewrite TextinputFacts.ti_delete_unselected in Hstep by done.
          case_bool_decide; by simplify_eq. }
      destruct (ExecDelete (Textinput.db m) (id it)) as [d r] eqn:Hex.
      rewrite (TextinputFacts.ti_delete_selected m it d r Hmode Hit Hex) in Hstep.
      pose proof (at_index_range _ _ _ Hit) as Hr.
      pose proof (len_delete _ _ Hr) as Hl.
      assert (Textinput.waste m ≠ []) as Hw.
      { intros Hw. apply len_nil_iff in Hw. lia. }
      specialize (Hne Hw).
      destruct r as [[]|e]; cbn in Hstep; simplify_eq; cbn; split_and!; try done.
      * intros Hw'.
        assert (len (delete (Z.to_nat (Textinput.cursor m)) (Textinput.waste m)) ≠ 0)
          by (intros Hz; by apply len_nil_iff in Hz).
        lia.
      * intros Hw'. apply len_nil_iff in Hw'. right. lia.
    + destruct (TextinputFacts.ti_list_key_keeps m m' key c Hmode Hkey Hstep)
        as (Hw & _ & _ & Hc).
      rewrite Hw, Hc. split; [|done].
      unfold Textinput.Update in Hstep. rewrite Hmode in Hstep.
      unfold Textinput.updateNormal, modify_at in Hstep.
      key_cases key in Hstep; simplify_eq; cbn; repeat case_bool_decide; cbn;
        try (by left).
      all: cbn [Textinput.inputs Textinput.set_focusIndex Textinput.set_inputmode] in Hstep;
        destruct (at_index (Textinput.inputs m) 0); cbn in Hstep; simplify_eq; cbn;
        by right.
  - destruct (decide (key = "enter")) as [-> | Hkey].
    2:{ destruct (decide (key = "esc")) as [-> | Hesc].
        - rewrite TextinputFacts.ti_esc in Hstep by done. simplify_eq. cbn.
          split_and!; auto.
        - rewrite TextinputFacts.ti_text in Hstep by done. by simplify_eq. }
    destruct (decide (Textinput.focusIndex m < len (Textinput.inputs m) - 1)) as [Hlt | Hlt].
    { rewrite TextinputFacts.ti_enter_advance in Hstep by done.
      destruct (at_index _ _); simplify_eq. cbn. split_and!; done. }
    rewrite TextinputFacts.ti_enter_submit in Hstep by (done || lia).
    destruct (TextinputFacts.ti_submit_cases m m' c Hstep)
      as [(Hw & Hm' & _ & _ & Hc & _) | Hok].
    { by rewrite Hw, Hm', Hc. }
    destruct Hok as (t0 & t1 & t2 & t3 & t4 & q & d & res & i & _ & _ & _ & _ & _ & _ &
                     _ & _ & Hpos & Hw & _ & _ & Hc & Hm' & _).
    assert (Textinput.waste m ≠ []) as Hw0.
    { intros Hw0. apply len_nil_iff in Hw0. lia. }
    rewrite Hc, Hm', Hw. split_and!; auto.
Qed.

Lemma ti_head_run (m m' : Textinput.model) (keys : list string) :
  Shape.ti_head m → Textinput.run m keys = Done m' → Shape.ti_head m'.
Proof.
  revert m. induction keys as [|key keys IH]; intros m Hwf Hrun;
    cbn [Textinput.run] in Hrun.
  - by simplify_eq.
  - destruct (Textinput.Update m (KeyMsg key)) as [[m1 c]|] eqn:Hstep; [|by simplify_eq].
    pose proof (ti_head_step m m1 (KeyMsg key) c Hwf Hstep) as Hwf1.
    destruct c; simplify_eq; eauto.
Qed.

(** Textinput variant: in every state a run of keys reaches from the start
    there are five inputs and each holds the empty text (no key is passed on
    to an input), the focus index is within 0..5, the cursor mode is one of
    the three, the form is on its name mode if it is open, and the cursor is
    0 whenever the list is not empty (no key moves it; it is -1 or 0 on the
    empty list). *)
Theorem textinput_reachable_shape (d : DB) (m0 m : Textinput.model)
    (keys : list string) :
  Textinput.initialModel d = Ok m0 → Textinput.run m0 keys = Done m →
  length (Textinput.inputs m) = 5%nat ∧
  Forall (λ t, Textinput.Value t = "") (Textinput.inputs m) ∧
  0 ≤ Textinput.focusIndex m ≤ 5 ∧
  0 ≤ Textinput.cursorMode m ≤ 2 ∧
  (Textinput.inputmode m = normal ∨ Textinput.inputmode m = addingName) ∧
  (Textinput.waste m ≠ [] → Textinput.cursor m = 0) ∧
  (Textinput.waste m = [] → Textinput.cursor m = 0 ∨ Textinput.cursor m = -1).
Proof.
  intros Hinit Hrun.
  destruct (ti_wf_run m0 m keys (ti_wf_initial d m0 Hinit) Hrun)
    as (Hlen & Hb & Hf & _ & Hcm & _).
  destruct (ti_head_run m0 m keys (ti_head_initial d m0 Hinit) Hrun)
    as (Hm & Hne & Hnil).
  unfold Textinput.CursorBlink, Textinput.CursorHide in Hcm.
  split_and!; try done; lia.
Qed.

(** Textinput variant: from a state in shape a message panics in one case
    only, the confirm on the last field of the form over an empty list when
    the parser takes the empty text and the store has inserted the blank
    item: the write at the last index of the list is then out of range. *)
Theorem textinput_panics_only_on_empty_submit (m : Textinput.model) (msg : Msg) :
  Shape.ti_wf m →
  Textinput.Update m msg = Panic ↔
    msg = KeyMsg "enter" ∧ Textinput.inputmode m ≠ normal ∧
    Textinput.focusIndex m = 4 ∧ Textinput.waste m = [] ∧
    ∃ q d res i, ParseFloat "" = Ok q ∧
                 ExecInsert (Textinput.db m) "" q "" "" "" = (d, Ok res) ∧
                 LastInsertId res = Ok i.
Proof.
  intros (Hlen & Hb & Hf & Hff & Hcm & Hce & Hcn).
  assert (Hl5 : len (Textinput.inputs m) = 5) by (unfold len; lia).
  split.
  - intros Hstep. destruct msg as [key|]; [|done].
    destruct (decide (Textinput.inputmode m = normal)) as [Hmode | Hmode].
    + exfalso. destruct (decide (key = "d")) as [-> | Hkey].
      2:{ destruct (TextinputFacts.ti_list_other_key m key Hmode Hkey)
            as (m1 & c1 & Hm1 & _); [|by rewrite Hm1 in Hstep].
          intros Hin. by rewrite Hin in Hlen. }
      destruct (at_index (Textinput.waste m) (Textinput.cursor m)) as [it|] eqn:Hit.
      { destruct (ExecDelete (Textinput.db m) (id it)) as [d r] eqn:Hex.
        rewrite (TextinputFacts.ti_delete_selected m it d r Hmode Hit Hex) in Hstep.
        by destruct r as [[]|e]. }
      rewrite TextinputFacts.ti_delete_unselected in Hstep by done.
      case_bool_decide; [|done]. apply at_index_None in Hit.
      assert (Textinput.waste m ≠ []) as Hw.
      { intros Hw. apply len_nil_iff in Hw. lia. }
      specialize (Hcn Hw). lia.
    + specialize (Hff Hmode). destruct (decide (key = "enter")) as [-> | Hkey].
      2:{ destruct (TextinputFacts.ti_form_key_keeps m key Hmode Hkey) as (m1 & Hm1 & _).
          by rewrite Hm1 in Hstep. }
      destruct (decide (Textinput.focusIndex m < len (Textinput.inputs m) - 1))
        as [Hlt | Hlt].
      { rewrite TextinputFacts.ti_enter_advance in Hstep by done.
        destruct (at_index _ _) eqn:Hit; [done|]. apply at_index_None in Hit. lia. }
      rewrite TextinputFacts.ti_enter_submit in Hstep by (done || lia).
      rewrite ti_blank_submit in Hstep by done.
      destruct (ParseFloat "") as [q|e] eqn:Hq; [|done].
      unfold Textinput.addWasteItem in Hstep.
      cbn [name quantity wasteType location method] in Hstep.
      destruct (ExecInsert (Textinput.db m) "" q "" "" "") as [d r] eqn:Hex.
      destruct r as [res|e]; [|done].
      destruct (LastInsertId res) as [i|e] eqn:Hid; [|done].
      unfold store_at in Hstep.
      destruct (at_index (Textinput.waste m) _) eqn:Hit; [done|].
      apply at_index_last_None in Hit.
      split_and!; try done; [lia|]. by exists q, d, res, i.
  - intros (-> & Hmode & Hfi & Hw & q & d & res & i & Hq & Hex & Hid).
    rewrite TextinputFacts.ti_enter_submit by (done || lia).
    rewrite ti_blank_submit by done. rewrite Hq.
    unfold Textinput.addWasteItem.
    cbn [name quantity wasteType location method]. rewrite Hex, Hid.
    unfold store_at. rewrite Hw.
    by rewrite (proj2 (at_index_None (@nil wasteItem) (len (@nil wasteItem) - 1)))
      by (left; unfold len; cbn; lia).
Qed.

(** One message under a parser that rejects the empty text: the list stays
    or loses its head. *)
Lemma ti_front_step (m m' : Textinput.model) (msg : Msg) (c : Cmd) (e : string) :
  ParseFloat "" = Err e → Shape.ti_wf m → Shape.ti_head m →
  Textinput.Update m msg = Done (m', c) →
  Textinput.waste m' = Textinput.waste m ∨
  Textinput.waste m' = drop 1 (Textinput.waste m).
Proof.
  intros Hq (Hlen & Hb & Hf & Hff & _) (_ & Hne & _) Hstep.
  destruct msg as [key|]; [|by cbn in Hstep; simplify_eq; left].
  destruct (decide (Textinput.inputmode m = normal)) as [Hmode | Hmode].
  - destruct (decide (key = "d")) as [-> | Hkey].
    2:{ left. by destruct (TextinputFacts.ti_list_key_keeps m m' key c Hmode Hkey Hstep). }
    destruct (at_index (Textinput.waste m) (Textinput.cursor m)) as [it|] eqn:Hit.
    2:{ rewrite TextinputFacts.ti_delete_unselected in Hstep by done.
        case_bool_decide; simplify_eq. by left. }
    destruct (ExecDelete (Textinput.db m) (id it)) as [d r] eqn:Hex.
    rewrite (TextinputFacts.ti_delete_selected m it d r Hmode Hit Hex) in Hstep.
    pose proof (at_index_range _ _ _ Hit) as Hr.
    assert (Textinput.waste m ≠ []) as Hw.
    { intros Hw. apply len_nil_iff in Hw. lia. }
    specialize (Hne Hw).
    destruct r as [[]|e']; cbn in Hstep; simplify_eq; cbn; [right|by left].
    rewrite Hne. by destruct (Textinput.waste m).
  - left. destruct (decide (key = "enter")) as [-> | Hkey].
    2:{ destruct (TextinputFacts.ti_form_key_keeps m key Hmode Hkey)
          as (m1 & Hm1 & Hw & _).
        rewrite Hm1 in Hstep. by simplify_eq. }
    destruct (decide (Textinput.focusIndex m < len (Textinput.inputs m) - 1))
      as [Hlt | Hlt].
    { rewrite TextinputFacts.ti_enter_advance in Hstep by done.
      destruct (at_index _ _); by simplify_eq. }
    rewrite TextinputFacts.ti_enter_submit in Hstep by (done || lia).
    rewrite ti_blank_submit in Hstep by done. rewrite Hq in Hstep.
    by simplify_eq.
Qed.

(** Textinput variant, under a parser that rejects the empty text (as
    [strconv.ParseFloat] does): in every state a run of keys reaches from
    the start, the list is the loaded list without some of its first items.
    Nothing is ever added or changed, and only the head can be deleted. *)
Theorem textinput_list_shrinks_from_front (d : DB) (m0 m : Textinput.model)
    (keys : list string) (e : string) :
  ParseFloat "" = Err e →
  Textinput.initialModel d = Ok m0 → Textinput.run m0 keys = Done m →
  ∃ k, Textinput.waste m = drop k (Textinput.waste m0).
Proof.
  intros Hq Hinit Hrun.
  pose proof (ti_wf_initial d m0 Hinit) as Hwf.
  pose proof (ti_head_initial d m0 Hinit) as Hhead.
  clear Hinit. revert m0 Hwf Hhead Hrun.
  induction keys as [|key keys IH]; intros m0 Hwf Hhead Hrun;
    cbn [Textinput.run] in Hrun.
  - simplify_eq. by exists 0%nat.
  - destruct (Textinput.Update m0 (KeyMsg key)) as [[m1 c]|] eqn:Hstep; [|by simplify_eq].
    pose proof (ti_wf_step m0 m1 _ c Hwf Hstep) as Hwf1.
    pose proof (ti_head_step m0 m1 _ c Hhead Hstep) as Hhead1.
    assert (∃ k, Textinput.waste m1 = drop k (Textinput.waste m0)) as [k1 Hk1].
    { destruct (ti_front_step m0 m1 _ c e Hq Hwf Hhead Hstep) as [-> | ->];
        [by exists 0%nat | by exists 1%nat]. }
    assert (c = CmdQuit ∧ m = m1 ∨ Textinput.run m1 keys = Done m) as [[_ ->] | Hrest].
    { destruct c; simplify_eq; auto. }
    + by exists k1.
    + destruct (IH m1 Hwf1 Hhead1 Hrest) as [k Hk].
      exists (k1 + k)%nat. by rewrite Hk, Hk1, drop_drop.
Qed.

(** Textinput variant: over any run of keys, from any state and with any
    parser and store, the list never gets longer. *)
Theorem textinput_list_never_grows (m m' : Textinput.model) (keys : list string) :
  Textinput.run m keys = Done m' →
  len (Textinput.waste m') ≤ len (Textinput.waste m).
Proof.
  revert m. induction keys as [|key keys IH]; intros m Hrun;
    cbn [Textinput.run] in Hrun.
  - simplify_eq. lia.
  - destruct (Textinput.Update m (KeyMsg key)) as [[m1 c]|] eqn:Hstep; [|by simplify_eq].
    pose proof (ti_list_never_grows_step m m1 _ c Hstep) as Hle.
    assert (c = CmdQuit ∧ m' = m1 ∨ Textinput.run m1 keys = Done m') as [[_ ->] | Hrest].
    { destruct c; simplify_eq; auto. }
    + done.
    + specialize (IH m1 Hrest). lia.
Qed.

End TextinputSafety.

(** Two items in the store; the arrow keys, a delete, the form opened and
    confirmed: five blank inputs, the cursor on the one item left. *)
Lemma textinput_reachable_shape_witness :
  ∃ m, Textinput.run (Sample.ti_boot [Sample.oil; Sample.rags] [])
         ["down"; "down"; "d"; "a"; "x"; "enter"] = Done m ∧
       length (Textinput.inputs m) = 5%nat ∧
       Forall (λ t, Textinput.Value t = "") (Textinput.inputs m) ∧
       (Textinput.waste m ≠ [] → Textinput.cursor m = 0).
Proof.
  run_result. split; [evaluated|].
  lazymatch goal with
  | |- length (Textinput.inputs ?m) = _ ∧ _ =>
      destruct (textinput_reachable_shape (host := Mem.host)
                  (Mem.holding [Sample.oil; Sample.rags] [])
                  (Sample.ti_boot [Sample.oil; Sample.rags] []) m
                  ["down"; "down"; "d"; "a"; "x"; "enter"])
        as (Hlen & Hb & _ & _ & _ & Hc & _)
  end.
  - reflexivity.
  - evaluated.
  - split_and!; [exact Hlen | exact Hb | exact Hc].
Defined.

(** The started program is in shape, so its [d] key does not panic. *)
Lemma textinput_panics_only_on_empty_submit_witness :
  Textinput.Update (Sample.ti_boot [Sample.oil] []) (KeyMsg "d") ≠ Panic.
Proof.
  intros Hp.
  apply (textinput_panics_only_on_empty_submit (host := Mem.host)) in Hp as (Hk & _).
  - discriminate Hk.
  - unfold Shape.ti_wf, Textinput.blank, Textinput.CursorBlink, Textinput.CursorHide.
    cbn. split_and!; done || lia.
Defined.

(** The decimal parser of the sample host rejects the empty text; two
    deletes and an attempt at the form leave the loaded list without its
    first two items. *)
Lemma textinput_list_shrinks_from_front_witness :
  ∃ m, Textinput.run (Sample.ti_boot [Sample.oil; Sample.rags; Sample.oil] [])
         ["d"; "down"; "d"; "a"; "enter"; "enter"; "enter"; "enter"; "enter"] =
       Done m ∧
       ∃ k, Textinput.waste m =
            drop k (Textinput.waste (Sample.ti_boot [Sample.oil; Sample.rags; Sample.oil] [])).
Proof.
  run_result. split; [evaluated|].
  apply (textinput_list_shrinks_from_front (host := Mem.host)
           (Mem.holding [Sample.oil; Sample.rags; Sample.oil] [])
           (Sample.ti_boot [Sample.oil; Sample.rags; Sample.oil] []) _
           ["d"; "down"; "d"; "a"; "enter"; "enter"; "enter"; "enter"; "enter"]
           (Mem.syntax_error "")).
  - evaluated.
  - reflexivity.
  - evaluated.
Defined.

(** The form opened and confirmed through on a list of two items: the list
    is no longer than before. *)
Lemma textinput_list_never_grows_witness :
  ∃ m, Textinput.run (Sample.ti_boot [Sample.oil; Sample.rags] [])
         ["a"; "enter"; "enter"; "enter"; "enter"; "enter"; "esc"] = Done m ∧
       len (Textinput.waste m) ≤
       len (Textinput.waste (Sample.ti_boot [Sample.oil; Sample.rags] [])).
Proof.
  run_result. split; [evaluated|].
  apply (textinput_list_never_grows (host := Mem.host)
           (Sample.ti_boot [Sample.oil; Sample.rags] []) _
           ["a"; "enter"; "enter"; "enter"; "enter"; "enter"; "esc"]).
  evaluated.
Defined.

(** ** Leaving the program *)

Section Quit.
Context {host : Host}.

(** In the form of the single-buffer program every key returns no command. *)
Lemma lb_form_cmd (m m' : Linebuf.model) (key : string) (c : Cmd) :
  Linebuf.inputmode m ≠ normal →
  Linebuf.Update m (KeyMsg key) = Done (m', c) → c = CmdNil.
Proof.
  intros Hmode Hstep. unfold Linebuf.Update in Hstep.
  destruct (Linebuf.inputmode m) eqn:Hm; [done|..];
    unfold Linebuf.updateAddingText, Linebuf.updateAddingQuantity in Hstep;
    (destruct (key_is key "enter");
     [ match type of Hstep with (?x ≫= _) = _ => destruct x end;
       cbn in Hstep; by simplify_eq
     | destruct (key_is key "esc"); by simplify_eq ]).
Qed.

(** Single-buffer variant: a message ends the program exactly when it is
    the key [q] or [ctrl+c] in list mode, and the state is then returned as
    it was.  In the form no key quits: [q] is text there. *)
Theorem linebuf_quits_only_on_quit_keys (m m' : Linebuf.model) (msg : Msg) :
  Linebuf.Update m msg = Done (m', CmdQuit) ↔
    m' = m ∧ Linebuf.inputmode m = normal ∧
    (msg = KeyMsg "q" ∨ msg = KeyMsg "ctrl+c").
Proof.
  split.
  - intros Hstep. destruct msg as [key|]; [|by cbn in Hstep; simplify_eq].
    destruct (decide (Linebuf.inputmode m = normal)) as [Hmode | Hmode].
    2:{ by pose proof (lb_form_cmd m m' key _ Hmode Hstep). }
    unfold Linebuf.Update in Hstep. rewrite Hmode in Hstep.
    unfold Linebuf.updateNormal, Linebuf.deleteWasteItem in Hstep.
    key_cases key in Hstep; simplify_eq; auto;
      repeat case_match; simplify_eq.
  - intros (-> & Hmode & [-> | ->]); unfold Linebuf.Update; rewrite Hmode;
      unfold Linebuf.updateNormal; by literal_keys.
Qed.

(** Textinput variant: the same; the [enter] test in the branch of the focus
    keys never holds, so the submit position of the focus index quits
    nothing. *)
Theorem textinput_quits_only_on_quit_keys (m m' : Textinput.model) (msg : Msg) :
  Textinput.Update m msg = Done (m', CmdQuit) ↔
    m' = m ∧ Textinput.inputmode m = normal ∧
    (msg = KeyMsg "q" ∨ msg = KeyMsg "ctrl+c").
Proof.
  split.
  - intros Hstep. destruct msg as [key|]; [|by cbn in Hstep; simplify_eq].
    destruct (decide (Textinput.inputmode m = normal)) as [Hmode | Hmode].
    + unfold Textinput.Update in Hstep. rewrite Hmode in Hstep.
      unfold Textinput.updateNormal, Textinput.deleteWasteItem, modify_at in Hstep.
      key_cases key in Hstep; simplify_eq; auto;
        repeat case_match; simplify_eq.
    + exfalso. destruct (decide (key = "enter")) as [-> | Hkey].
      2:{ destruct (TextinputFacts.ti_form_key_keeps m key Hmode Hkey) as (m1 & Hm1 & _).
          rewrite Hm1 in Hstep. by simplify_eq. }
      destruct (decide (Textinput.focusIndex m < len (Textinput.inputs m) - 1))
        as [Hlt | Hlt].
      { rewrite TextinputFacts.ti_enter_advance in Hstep by done.
        destruct (at_index _ _); by simplify_eq. }
      rewrite TextinputFacts.ti_enter_submit in Hstep by (done || lia).
      unfold Textinput.submitWasteItem, get_at, Textinput.addWasteItem, store_at in Hstep.
      repeat (case_match; cbn in Hstep; simplify_eq).
  - intros (-> & Hmode & [-> | ->]); unfold Textinput.Update; rewrite Hmode;
      unfold Textinput.updateNormal; by literal_keys.
Qed.

End Quit.

(** ** The list-mode keys of the textinput program *)

Section TextinputListKeys.
Context {host : Host}.

Lemma ti_set_cursorMode_same (m : Textinput.model) :
  Textinput.set_cursorMode (Textinput.cursorMode m) m = m.
Proof. by destruct m. Qed.

(** Textinput variant: in list mode [ctrl+r] moves the cursor mode one step
    round the three modes and changes nothing else, so three presses give
    the state back; it never quits. *)
Theorem textinput_cursor_mode_cycles (m : Textinput.model) :
  Textinput.inputmode m = normal →
  Textinput.CursorBlink ≤ Textinput.cursorMode m ≤ Textinput.CursorHide →
  (∃ cs, Textinput.Update m (KeyMsg "ctrl+r") =
         Done (Textinput.set_cursorMode ((Textinput.cursorMode m + 1) `mod` 3) m,
               CmdBatch cs)) ∧
  Textinput.run m ["ctrl+r"; "ctrl+r"; "ctrl+r"] = Done m.
Proof.
  unfold Textinput.CursorBlink, Textinput.CursorHide. intros Hmode Hcm.
  assert (Hone : ∀ m1 : Textinput.model,
            Textinput.inputmode m1 = normal → 0 ≤ Textinput.cursorMode m1 ≤ 2 →
            ∃ cs, Textinput.Update m1 (KeyMsg "ctrl+r") =
                  Done (Textinput.set_cursorMode
                          ((Textinput.cursorMode m1 + 1) `mod` 3) m1, CmdBatch cs)).
  { intros m1 Hm1 Hc1. unfold Textinput.Update. rewrite Hm1.
    unfold Textinput.updateNormal, Textinput.CursorBlink, Textinput.CursorHide.
    literal_keys. cbn [Textinput.cursorMode Textinput.set_cursorMode].
    case_bool_decide; eexists.
    - assert (Textinput.cursorMode m1 = 2) as -> by lia. reflexivity.
    - rewrite Z.mod_small by lia. reflexivity. }
  split; [by apply Hone|].
  destruct (Hone m Hmode Hcm) as [cs1 H1].
  set (m1 := Textinput.set_cursorMode ((Textinput.cursorMode m + 1) `mod` 3) m) in *.
  assert (0 ≤ Textinput.cursorMode m1 ≤ 2) as Hc1.
  { subst m1. cbn [Textinput.cursorMode Textinput.set_cursorMode].
    pose proof (Z.mod_pos_bound (Textinput.cursorMode m + 1) 3). lia. }
  destruct (Hone m1 Hmode Hc1) as [cs2 H2].
  set (m2 := Textinput.set_cursorMode ((Textinput.cursorMode m1 + 1) `mod` 3) m1) in *.
  assert (0 ≤ Textinput.cursorMode m2 ≤ 2) as Hc2.
  { subst m2. cbn [Textinput.cursorMode Textinput.set_cursorMode].
    pose proof (Z.mod_pos_bound (Textinput.cursorMode m1 + 1) 3). lia. }
  destruct (Hone m2 Hmode Hc2) as [cs3 H3].
  cbn [Textinput.run]. rewrite H1, H2, H3. f_equal.
  subst m2 m1. cbn [Textinput.cursorMode Textinput.set_cursorMode].
  rewrite <- (ti_set_cursorMode_same m) at 4.
  destruct m as [d w cu ins md er cm fi]. cbn in *. unfold Textinput.set_cursorMode.
  cbn. f_equal.
  assert (cm = 0 ∨ cm = 1 ∨ cm = 2) as [-> | [-> | ->]] by lia; reflexivity.
Qed.

(** Textinput variant: in list mode a focus key moves the focus index one
    step round the positions 0..n (n inputs, then the submit position),
    backwards for [up] and [shift+tab]; afterwards an input is focused
    exactly when it is at the focus index, no text has changed, and the list
    and its cursor are as before: the arrow keys do not move the selection. *)
Theorem textinput_focus_keys_cycle (m : Textinput.model) (key : string) :
  Textinput.inputmode m = normal → focus_key key →
  0 ≤ Textinput.focusIndex m ≤ len (Textinput.inputs m) →
  ∃ m' cs,
    Textinput.Update m (KeyMsg key) = Done (m', CmdBatch cs) ∧
    Textinput.focusIndex m' =
      (Textinput.focusIndex m + (if bool_decide (key = "up" ∨ key = "shift+tab")
                                 then -1 else 1))
      `mod` (len (Textinput.inputs m) + 1) ∧
    (∀ i t, Textinput.inputs m' !! i = Some t →
            Textinput.focus t = bool_decide (Z.of_nat i = Textinput.focusIndex m')) ∧
    Textinput.Value <$> Textinput.inputs m' = Textinput.Value <$> Textinput.inputs m ∧
    Textinput.inputmode m' = normal ∧
    Textinput.waste m' = Textinput.waste m ∧ Textinput.cursor m' = Textinput.cursor m.
Proof.
  intros Hmode Hk Hf. pose proof (len_nonneg (Textinput.inputs m)) as Hn.
  assert (Hfocus : ∀ (j : Z) (l : list Textinput.textinput) (i : nat) (t : Textinput.textinput),
            imap (λ i t, if bool_decide (Z.of_nat i = j)
                         then Textinput.Focus t else Textinput.Blur t) l !! i = Some t →
            Textinput.focus t = bool_decide (Z.of_nat i = j)).
  { intros j l i t. rewrite list_lookup_imap.
    destruct (l !! i) as [t0|]; [|done]. cbn. intros [= <-].
    by case_bool_decide. }
  assert (Hvalue : ∀ (j : Z) (l : list Textinput.textinput),
            Textinput.Value <$> imap (λ i t, if bool_decide (Z.of_nat i = j)
                         then Textinput.Focus t else Textinput.Blur t) l =
            Textinput.Value <$> l).
  { intros j l. apply list_eq. intros i.
    rewrite !list_lookup_fmap, list_lookup_imap.
    destruct (l !! i) as [t0|]; [|done]. cbn. by case_bool_decide. }
  unfold Textinput.Update. rewrite Hmode. unfold Textinput.updateNormal.
  destruct Hk as [-> | [-> | [-> | ->]]]; literal_keys;
    cbn [Textinput.focusIndex Textinput.set_focusIndex Textinput.inputs];
    (eexists _, _; split; [reflexivity|]);
    repeat case_bool_decide; try lia; try (exfalso; intuition congruence);
    cbn [Textinput.focusIndex Textinput.set_focusIndex Textinput.set_inputs
         Textinput.inputs Textinput.inputmode Textinput.waste Textinput.cursor];
    (split_and!; [|by apply Hfocus|by apply Hvalue|done..]).
  all: try (rewrite Z.mod_small by lia; lia).
  all: try (replace (Textinput.focusIndex m + 1) with
              (1 * (len (Textinput.inputs m) + 1)) by lia;
            by rewrite Z.mod_mul by lia).
  all: replace (Textinput.focusIndex m + -1) with
         (len (Textinput.inputs m) + -1 * (len (Textinput.inputs m) + 1)) by lia;
       rewrite Z.mod_add by lia; rewrite Z.mod_small by lia; lia.
Qed.

End TextinputListKeys.

(** A full turn of the cursor modes on the started program. *)
Lemma textinput_cursor_mode_cycles_witness :
  Textinput.run (Sample.ti_boot [Sample.oil] []) ["ctrl+r"; "ctrl+r"; "ctrl+r"] =
    Done (Sample.ti_boot [Sample.oil] []).
Proof.
  destruct (textinput_cursor_mode_cycles (host := Mem.host)
              (Sample.ti_boot [Sample.oil] [])) as [_ Hrun].
  - reflexivity.
  - unfold Sample.ti_boot. cbn [Textinput.cursorMode].
    unfold Textinput.CursorBlink, Textinput.CursorHide. lia.
  - exact Hrun.
Defined.

(** [up] on the started program: from the first input to the submit
    position, past the end of the five inputs. *)
Lemma textinput_focus_keys_cycle_witness :
  ∃ m' cs, Textinput.Update (Sample.ti_boot [Sample.oil] []) (KeyMsg "up") =
             Done (m', CmdBatch cs) ∧
           Textinput.focusIndex m' = 5 ∧
           Textinput.cursor m' = 0.
Proof.
  destruct (textinput_focus_keys_cycle (host := Mem.host)
              (Sample.ti_boot [Sample.oil] []) "up")
    as (m' & cs & Hstep & Hfi & _ & _ & _ & _ & Hc).
  - reflexivity.
  - right. right. by left.
  - unfold Sample.ti_boot, len. cbn. lia.
  - exists m', cs. split_and!; [exact Hstep | by rewrite Hfi | by rewrite Hc].
Defined.

(** ** Cancelling a form of the single-buffer program *)

Section LinebufCancel.
Context {host : Host}.

(** Single-buffer variant: the form opened, a name typed and confirmed, any
    text typed at the quantity, then cancel.  The program is back in list
    mode with the buffer empty, and the list keeps the item that the name
    confirm appended, with that name, identifier 0 and no other field set;
    store, cursor and error are untouched. *)
Theorem linebuf_cancel_keeps_named_item (m : Linebuf.model)
    (nameK qtyK : list string) :
  Linebuf.inputmode m = normal → Forall text_key nameK → Forall text_key qtyK →
  Linebuf.run m ("a" :: nameK ++ "enter" :: qtyK ++ ["esc"]) =
    Done {| Linebuf.db := Linebuf.db m;
            Linebuf.waste := Linebuf.waste m ++ [Linebuf.pending (joined nameK)];
            Linebuf.cursor := Linebuf.cursor m; Linebuf.input := "";
            Linebuf.inputmode := normal; Linebuf.err := Linebuf.err m |}.
Proof.
  intros Hmode Hn Hq.
  destruct m as [d0 w c inp mode e]. cbn in Hmode. subst mode.
  cbn [Linebuf.run]. rewrite LinebufFacts.lb_add by done. lb_norm.
  rewrite lb_field_typed by done. lb_norm.
  rewrite LinebufFacts.lb_name_confirm by done. lb_norm.
  rewrite LinebufFacts.lb_text_then_esc by done. by lb_norm.
Qed.

End LinebufCancel.

(** A name typed and the form cancelled at the quantity: the list of the
    empty store holds an item named Oil that the store never saw. *)
Lemma linebuf_cancel_keeps_named_item_witness :
  Linebuf.run (Sample.lb_boot [] []) ("a" :: Sample.typed "Oil" ++ "enter" :: ["1"] ++ ["esc"]) =
    Done (@Linebuf.Build_model Mem.host (Mem.holding [] [])
            [Linebuf.pending "Oil"] 0 "" normal None).
Proof.
  apply (linebuf_cancel_keeps_named_item (host := Mem.host) (Sample.lb_boot [] [])
           (Sample.typed "Oil") ["1"]);
    try reflexivity; repeat constructor; discriminate.
Defined.

(** ** What reaches the store *)

Section StoreAccess.
Context {host : Host}.

(** Single-buffer variant: a message leaves the store as it was unless it
    is [d] on a selected item in list mode, which runs the delete statement
    on that item's identifier, or the confirm of the method field, which
    runs the insert statement on the last item of the list.  Moving, typing,
    cancelling and the other confirms never reach the store. *)
Theorem linebuf_store_touched_only_by (m m' : Linebuf.model) (msg : Msg) (c : Cmd) :
  Linebuf.Update m msg = Done (m', c) → Linebuf.db m' ≠ Linebuf.db m →
  (msg = KeyMsg "d" ∧ Linebuf.inputmode m = normal ∧
     ∃ it, at_index (Linebuf.waste m) (Linebuf.cursor m) = Some it ∧
           Linebuf.db m' = (ExecDelete (Linebuf.db m) (id it)).1)
  ∨ (msg = KeyMsg "enter" ∧ Linebuf.inputmode m = addingMethod ∧
       ∃ it, at_index (Linebuf.waste m) (len (Linebuf.waste m) - 1) = Some it ∧
             Linebuf.db m' =
               (ExecInsert (Linebuf.db m) (name it) (quantity it) (wasteType it)
                  (location it) (Linebuf.input m)).1).
Proof.
  intros Hstep Hdb. destruct msg as [key|]; [|by cbn in Hstep; simplify_eq].
  destruct (decide (Linebuf.inputmode m = normal)) as [Hmode | Hmode].
  - left. destruct (decide (key = "d")) as [-> | Hkey].
    2:{ by destruct (LinebufFacts.lb_list_other_key m m' key c Hmode Hkey Hstep)
          as (_ & ? & _). }
    destruct (at_index (Linebuf.waste m) (Linebuf.cursor m)) as [it|] eqn:Hit.
    2:{ rewrite LinebufFacts.lb_delete_unselected in Hstep by done.
        case_bool_decide; by simplify_eq. }
    destruct (ExecDelete (Linebuf.db m) (id it)) as [d r] eqn:Hex.
    rewrite (LinebufFacts.lb_delete_selected m it d r Hmode Hit Hex) in Hstep.
    split_and!; try done. exists it. split; [done|]. rewrite Hex.
    destruct r as [[]|e]; cbn in Hstep; by simplify_eq.
  - right. destruct (decide (key = "enter")) as [-> | Hkey].
    2:{ destruct (LinebufFacts.lb_form_other_key m key Hmode Hkey)
          as (m1 & Hm1 & _ & ? & _).
        rewrite Hm1 in Hstep. by simplify_eq. }
    destruct (Linebuf.inputmode m) eqn:Hm; [done|..].
    + rewrite LinebufFacts.lb_name_confirm in Hstep by done. by simplify_eq.
    + rewrite LinebufFacts.lb_quantity_confirm in Hstep by done.
      destruct (ParseFloat _); [|by simplify_eq].
      destruct (at_index _ _); by simplify_eq.
    + rewrite LinebufFacts.lb_type_confirm in Hstep by done.
      destruct (at_index _ _); by simplify_eq.
    + rewrite LinebufFacts.lb_location_confirm in Hstep by done.
      destruct (at_index _ _); by simplify_eq.
    + destruct (at_index (Linebuf.waste m) (len (Linebuf.waste m) - 1))
        as [it|] eqn:Hit.
      2:{ by rewrite LinebufFacts.lb_method_confirm_empty in Hstep. }
      destruct (ExecInsert (Linebuf.db m) (name it) (quantity it) (wasteType it)
                  (location it) (Linebuf.input m)) as [d r] eqn:Hex.
      rewrite (LinebufFacts.lb_method_confirm m it d r Hm Hit Hex) in Hstep.
      split_and!; try done. exists it. split; [done|]. rewrite Hex.
      destruct r as [res|e]; [destruct (LastInsertId res)|];
        cbn in Hstep; by simplify_eq.
Qed.

(** Textinput variant: the same; the insert statement is run by the confirm
    on the last field, on the texts of the five inputs, once the quantity
    text has parsed. *)
Theorem textinput_store_touched_only_by (m m' : Textinput.model) (msg : Msg)
    (c : Cmd) :
  Textinput.Update m msg = Done (m', c) → Textinput.db m' ≠ Textinput.db m →
  (msg = KeyMsg "d" ∧ Textinput.inputmode m = normal ∧
     ∃ it, at_index (Textinput.waste m) (Textinput.cursor m) = Some it ∧
           Textinput.db m' = (ExecDelete (Textinput.db m) (id it)).1)
  ∨ (msg = KeyMsg "enter" ∧ Textinput.inputmode m ≠ normal ∧
       len (Textinput.inputs m) - 1 ≤ Textinput.focusIndex m ∧
       ∃ t0 t1 t2 t3 t4 q,
         at_index (Textinput.inputs m) 0 = Some t0 ∧
         at_index (Textinput.inputs m) 1 = Some t1 ∧
         at_index (Textinput.inputs m) 2 = Some t2 ∧
         at_index (Textinput.inputs m) 3 = Some t3 ∧
         at_index (Textinput.inputs m) 4 = Some t4 ∧
         ParseFloat (Textinput.Value t1) = Ok q ∧
         Textinput.db m' =
           (ExecInsert (Textinput.db m) (Textinput.Value t0) q (Textinput.Value t2)
              (Textinput.Value t3) (Textinput.Value t4)).1).
Proof.
  intros Hstep Hdb. destruct msg as [key|]; [|by cbn in Hstep; simplify_eq].
  destruct (decide (Textinput.inputmode m = normal)) as [Hmode | Hmode].
  - left. destruct (decide (key = "d")) as [-> | Hkey].
    2:{ by destruct (TextinputFacts.ti_list_key_keeps m m' key c Hmode Hkey Hstep)
          as (_ & ? & _). }
    destruct (at_index (Textinput.waste m) (Textinput.cursor m)) as [it|] eqn:Hit.
    2:{ rewrite TextinputFacts.ti_delete_unselected in Hstep by done.
        case_bool_decide; by simplify_eq. }
    destruct (ExecDelete (Textinput.db m) (id it)) as [d r] eqn:Hex.
    rewrite (TextinputFacts.ti_delete_selected m it d r Hmode Hit Hex) in Hstep.
    split_and!; try done. exists it. split; [done|]. rewrite Hex.
    destruct r as [[]|e]; cbn in Hstep; by simplify_eq.
  - right. destruct (decide (key = "enter")) as [-> | Hkey].
    2:{ destruct (TextinputFacts.ti_form_key_keeps m key Hmode Hkey)
          as (m1 & Hm1 & _ & ? & _).
        rewrite Hm1 in Hstep. by simplify_eq. }
    destruct (decide (Textinput.focusIndex m < len (Textinput.inputs m) - 1))
      as [Hlt | Hlt].
    { rewrite TextinputFacts.ti_enter_advance in Hstep by done.
      destruct (at_index _ _); by simplify_eq. }
    rewrite TextinputFacts.ti_enter_submit in Hstep by (done || lia).
    unfold Textinput.submitWasteItem, get_at in Hstep.
    destruct (at_index (Textinput.inputs m) 1) as [t1|] eqn:H1; [|done].
    cbn [mbind outcome_bind] in Hstep.
    destruct (ParseFloat (Textinput.Value t1)) as [q|e] eqn:Hq; [|by simplify_eq].
    destruct (at_index (Textinput.inputs m) 0) as [t0|] eqn:H0; [|done].
    destruct (at_index (Textinput.inputs m) 2) as [t2|] eqn:H2; [|done].
    destruct (at_index (Textinput.inputs m) 3) as [t3|] eqn:H3; [|done].
    destruct (at_index (Textinput.inputs m) 4) as [t4|] eqn:H4; [|done].
    cbn [mbind outcome_bind] in Hstep. unfold Textinput.addWasteItem in Hstep.
    cbn [name quantity wasteType location method] in Hstep.
    split_and!; try done; [lia|]. exists t0, t1, t2, t3, t4, q.
    split_and!; try done.
    destruct (ExecInsert _ _ _ _ _ _) as [d r].
    destruct r as [res|e]; [|by cbn in Hstep; simplify_eq].
    destruct (LastInsertId res) as [i|e]; [|by cbn in Hstep; simplify_eq].
    unfold store_at in Hstep.
    destruct (at_index (Textinput.waste m) _) as [old|]; [|done].
    cbn in Hstep. by simplify_eq.
Qed.

End StoreAccess.

(** [d] on the one item of the store: the store the program holds
    afterwards is the one the delete statement returned. *)
Lemma linebuf_store_touched_only_by_witness :
  ∃ m', Linebuf.Update (Sample.lb_boot [Sample.oil] []) (KeyMsg "d") = Done (m', CmdNil) ∧
        ∃ it, at_index (Linebuf.waste (Sample.lb_boot [Sample.oil] []))
                (Linebuf.cursor (Sample.lb_boot [Sample.oil] [])) = Some it ∧
              Linebuf.db m' =
                (ExecDelete (Linebuf.db (Sample.lb_boot [Sample.oil] [])) (id it)).1.
Proof.
  run_result. split; [evaluated|].
  lazymatch goal with
  | |- ∃ it, _ ∧ Linebuf.db ?m' = _ =>
      destruct (linebuf_store_touched_only_by (host := Mem.host)
                  (Sample.lb_boot [Sample.oil] []) m' (KeyMsg "d") CmdNil)
        as [(_ & _ & Hit) | (Hk & _)]
  end.
  - evaluated.
  - intros Hdb. apply (f_equal Mem.rows) in Hdb. cbv in Hdb. discriminate Hdb.
  - exact Hit.
  - discriminate Hk.
Defined.

(** Confirm on the last field of a filled form: the store the program holds
    afterwards is the one the insert statement returned for the five texts. *)
Lemma textinput_store_touched_only_by_witness :
  ∃ m', Textinput.Update
          (Sample.ti_form [Sample.oil] [] ["Rags"; "2.5"; "Solid"; "Bay2"; "Landfill"] 4)
          (KeyMsg "enter") = Done (m', CmdNil) ∧
        ∃ q, Mem.parse_decimal "2.5" = Ok q ∧
             Textinput.db m' =
               (Mem.insert (Mem.holding [Sample.oil] []) "Rags" q "Solid" "Bay2"
                  "Landfill").1.
Proof.
  run_result. split; [evaluated|].
  lazymatch goal with
  | |- ∃ q, _ ∧ Textinput.db ?m' = _ =>
      destruct (textinput_store_touched_only_by (host := Mem.host)
                  (Sample.ti_form [Sample.oil] []
                     ["Rags"; "2.5"; "Solid"; "Bay2"; "Landfill"] 4)
                  m' (KeyMsg "enter") CmdNil)
        as [(Hk & _) | (_ & _ & _ & t0 & t1 & t2 & t3 & t4 & q &
                        H0 & H1 & H2 & H3 & H4 & Hq & Hdb)]
  end.
  - evaluated.
  - intros Hdb. apply (f_equal Mem.rows) in Hdb. apply (f_equal length) in Hdb.
    cbv in Hdb. discriminate Hdb.
  - discriminate Hk.
  - apply at_index_Some in H0 as [_ H0]. apply at_index_Some in H1 as [_ H1].
    apply at_index_Some in H2 as [_ H2]. apply at_index_Some in H3 as [_ H3].
    apply at_index_Some in H4 as [_ H4]. cbn in H0, H1, H2, H3, H4.
    injection H0 as <-. injection H1 as <-. injection H2 as <-.
    injection H3 as <-. injection H4 as <-.
    exists q. split; [exact Hq | exact Hdb].
Defined.

(** ** What the single-buffer screen shows of an error *)

Section LinebufScreen.
Context {host : Host} {terminal : LinebufView.Terminal}.

(** A row shows name, type, quantity, location and method: replacing an
    item by one that differs in its identifier only leaves the rows. *)
Lemma rows_insert_same_shown (c i : Z) (w : list wasteItem) (k : nat)
    (x y : wasteItem) (s : string) :
  name x = name y → wasteType x = wasteType y → quantity x = quantity y →
  location x = location y → method x = method y →
  LinebufView.rows c i (<[k := x]> w) s = LinebufView.rows c i (<[k := y]> w) s.
Proof.
  intros Hn Ht Hq Hl Hm. revert i k s.
  induction w as [|z w IH]; intros i k s; [done|].
  destruct k as [|k]; cbn [LinebufView.rows list_insert insert].
  - by rewrite Hn, Ht, Hq, Hl, Hm.
  - apply IH.
Qed.

(** Single-buffer variant: when the delete statement fails, the error is
    stored but the screen is the one before the key; the message shows up
    only once the form is opened, under the prompt for the name. *)
Theorem linebuf_failed_delete_hidden_until_form (m : Linebuf.model)
    (it : wasteItem) (d : DB) (e : string) :
  Linebuf.inputmode m = normal →
  at_index (Linebuf.waste m) (Linebuf.cursor m) = Some it →
  ExecDelete (Linebuf.db m) (id it) = (d, Err e) →
  ∃ m1 m2,
    Linebuf.Update m (KeyMsg "d") = Done (m1, CmdNil) ∧
    LinebufView.View m1 = LinebufView.View m ∧
    Linebuf.Update m1 (KeyMsg "a") = Done (m2, CmdNil) ∧
    LinebufView.View m2 =
      (LinebufView.table m +:+ "Enter waste name: ") +:+
      (LinebufView.nl +:+ "Error: " +:+ Errorf "failed to delete item" e).
Proof.
  intros Hmode Hit Hex.
  eexists _, _. split_and!.
  - by rewrite (LinebufFacts.lb_delete_selected m it d (Err e) Hmode Hit Hex).
  - unfold LinebufView.View, LinebufView.table. cbn. by rewrite Hmode.
  - by rewrite LinebufFacts.lb_add.
  - reflexivity.
Qed.

(** Single-buffer variant: the screen after the confirm of the method field
    does not tell whether the store took the item.  Whatever the insert
    statement returned, the program shows list mode, the item in its row
    with the method typed, and no error. *)
Theorem linebuf_insert_outcome_not_on_screen (m m' : Linebuf.model)
    (it : wasteItem) (c : Cmd) :
  Linebuf.inputmode m = addingMethod →
  at_index (Linebuf.waste m) (len (Linebuf.waste m) - 1) = Some it →
  Linebuf.Update m (KeyMsg "enter") = Done (m', c) →
  LinebufView.View m' =
    LinebufView.View
      (Linebuf.set_inputmode normal
         (Linebuf.set_waste
            (<[Linebuf.last_index m := Linebuf.with_method (Linebuf.input m) it]>
               (Linebuf.waste m)) m)).
Proof.
  intros Hmode Hit Hstep.
  destruct (ExecInsert (Linebuf.db m) (name it) (quantity it) (wasteType it)
              (location it) (Linebuf.input m)) as [d r] eqn:Hex.
  rewrite (LinebufFacts.lb_method_confirm m it d r Hmode Hit Hex) in Hstep.
  cbv zeta in Hstep.
  destruct r as [res|e]; [destruct (LastInsertId res) as [i|e]|];
    simplify_eq; unfold LinebufView.View, LinebufView.table; cbn; try done.
  do 2 f_equal. by apply rows_insert_same_shown.
Qed.

End LinebufScreen.

(** A locked store: [d] leaves the screen, and the form then opens on the
    message. *)
Lemma linebuf_failed_delete_hidden_until_form_witness :
  ∃ m1 m2,
    Linebuf.Update (Sample.lb_boot [Sample.oil] [true]) (KeyMsg "d") = Done (m1, CmdNil) ∧
    LinebufView.View (terminal := Sample.plain) m1 =
      LinebufView.View (terminal := Sample.plain) (Sample.lb_boot [Sample.oil] [true]) ∧
    Linebuf.Update m1 (KeyMsg "a") = Done (m2, CmdNil) ∧
    LinebufView.View (terminal := Sample.plain) m2 =
      (LinebufView.table (terminal := Sample.plain) (Sample.lb_boot [Sample.oil] [true])
       +:+ "Enter waste name: ") +:+
      (LinebufView.nl +:+ "Error: " +:+
       Errorf "failed to delete item" "database is locked").
Proof.
  apply (linebuf_failed_delete_hidden_until_form (host := Mem.host)
           (terminal := Sample.plain) (Sample.lb_boot [Sample.oil] [true])
           Sample.oil (Mem.delete (Mem.holding [Sample.oil] [true]) 1).1).
  - reflexivity.
  - by apply at_index_Some.
  - reflexivity.
Defined.

(** The method confirmed on a store that refuses the insert: the screen is
    that of list mode with the item in its row. *)
Lemma linebuf_insert_outcome_not_on_screen_witness :
  ∃ m', Linebuf.Update
          (@Linebuf.Build_model Mem.host (Mem.holding [] [true])
             [Linebuf.pending "Oil"] 0 "Burn" addingMethod None)
          (KeyMsg "enter") = Done (m', CmdNil) ∧
        LinebufView.View (terminal := Sample.plain) m' =
          LinebufView.View (terminal := Sample.plain)
            (@Linebuf.Build_model Mem.host (Mem.holding [] [true])
               [Linebuf.with_method "Burn" (Linebuf.pending "Oil")] 0 "Burn" normal None).
Proof.
  run_result. split; [evaluated|].
  apply (linebuf_insert_outcome_not_on_screen (host := Mem.host)
           (terminal := Sample.plain)
           (@Linebuf.Build_model Mem.host (Mem.holding [] [true])
              [Linebuf.pending "Oil"] 0 "Burn" addingMethod None)
           _ (Linebuf.pending "Oil") CmdNil).
  - reflexivity.
  - by apply at_index_Some.
  - evaluated.
Defined.
